(** * RealEstateGame: a shallow embedding of Game.py

    The three classes of Game.py ([GameSpace], [Player], [RealEstateGame])
    are embedded as records and functions.  Python integers are [Z].  The
    engine's methods run in a small state-and-exception monad over the
    [RealEstateGame] record: a raised exception does not roll back what
    the method had already mutated, exactly as in Python. *)

From Stdlib Require Import ZArith Lia.
From stdpp Require Import base list strings.

Open Scope string_scope.
Open Scope Z_scope.

(** ** Names of game spaces

    A game space is named ['GO'] (a string) or by its number (an int).  The
    same two shapes are stored in a player's [_current_location]. *)

Inductive space_name : Type :=
| GO
| Num (n : Z).

#[global] Instance space_name_eq_dec : EqDecision space_name.
Proof. solve_decision. Defined.

(** ** class GameSpace *)

Module GameSpace.

Record t : Type := mk {
  _game_space_name : space_name;
  _rent : Z;
  _purchase_price : Z;
  _game_space_owner : option string
}.

Definition init (game_space_name : space_name) (rent : Z) : t :=
  {| _game_space_name := game_space_name;
     _rent := rent;
     _purchase_price := rent * 5;
     _game_space_owner := None |}.

Definition get_game_space_name (s : t) : space_name := _game_space_name s.
Definition get_rent (s : t) : Z := _rent s.
Definition get_purchase_price (s : t) : Z := _purchase_price s.
Definition get_game_space_owner (s : t) : option string := _game_space_owner s.

Definition set_game_space_owner (player_name : string) (s : t) : t :=
  {| _game_space_name := _game_space_name s;
     _rent := _rent s;
     _purchase_price := _purchase_price s;
     _game_space_owner := Some player_name |}.

Definition remove_game_space_owner (s : t) : t :=
  {| _game_space_name := _game_space_name s;
     _rent := _rent s;
     _purchase_price := _purchase_price s;
     _game_space_owner := None |}.

End GameSpace.

(** ** class Player *)

Module Player.

Record t : Type := mk {
  _player_name : string;
  _account_balance : Z;
  _current_location : space_name;
  _owned_game_spaces : list space_name
}.

Definition init (player_name : string) (starting_account_balance : Z) : t :=
  {| _player_name := player_name;
     _account_balance := starting_account_balance;
     _current_location := GO;
     _owned_game_spaces := [] |}.

Definition get_player_name (p : t) : string := _player_name p.
Definition get_current_account_balance (p : t) : Z := _account_balance p.

Definition deposit (amount : Z) (p : t) : t :=
  {| _player_name := _player_name p;
     _account_balance := _account_balance p + amount;
     _current_location := _current_location p;
     _owned_game_spaces := _owned_game_spaces p |}.

Definition withdraw (amount : Z) (p : t) : t :=
  {| _player_name := _player_name p;
     _account_balance := _account_balance p - amount;
     _current_location := _current_location p;
     _owned_game_spaces := _owned_game_spaces p |}.

Definition set_location (game_space_name : space_name) (p : t) : t :=
  {| _player_name := _player_name p;
     _account_balance := _account_balance p;
     _current_location := game_space_name;
     _owned_game_spaces := _owned_game_spaces p |}.

(** [if self._current_location == "GO": return 0] *)
Definition get_location (p : t) : Z :=
  match _current_location p with
  | GO => 0
  | Num n => n
  end.

Definition get_owned_game_spaces (p : t) : list space_name :=
  _owned_game_spaces p.

Definition buy_game_space (game_space_name : space_name) (p : t) : t :=
  {| _player_name := _player_name p;
     _account_balance := _account_balance p;
     _current_location := _current_location p;
     _owned_game_spaces := _owned_game_spaces p ++ [game_space_name] |}.

Definition clear_owned_game_spaces (p : t) : t :=
  {| _player_name := _player_name p;
     _account_balance := _account_balance p;
     _current_location := _current_location p;
     _owned_game_spaces := [] |}.

End Player.

(** ** Python containers

    [self._players] is a dict keyed by player name.  Python dicts iterate
    in insertion order and [check_game_over] depends on that order, so the
    dict is an association list; a new key goes to the end, and an object
    found under a key is mutated in place. *)

Section Dict.
Context {V : Type}.

Fixpoint dict_get (k : string) (d : list (string * V)) : option V :=
  match d with
  | [] => None
  | (k', v) :: d' => if String.eqb k k' then Some v else dict_get k d'
  end.

Fixpoint dict_update (k : string) (f : V -> V) (d : list (string * V))
  : list (string * V) :=
  match d with
  | [] => []
  | (k', v) :: d' =>
      if String.eqb k k' then (k', f v) :: d'
      else (k', v) :: dict_update k f d'
  end.

Definition dict_keys (d : list (string * V)) : list string := map fst d.
End Dict.

(** [l[i]] on a Python list: a negative index counts from the end, an index
    outside [-len, len) raises IndexError (here: no slot). *)
Definition py_index {A : Type} (l : list A) (i : Z) : option nat :=
  let len := Z.of_nat (length l) in
  if 0 <=? i then (if i <? len then Some (Z.to_nat i) else None)
  else (if 0 <=? len + i then Some (Z.to_nat (len + i)) else None).

(** ** class RealEstateGame

    Each element of [_game_board] is the one-key dict [{num: GameSpace}],
    kept as the pair of its key and its value. *)

Record RealEstateGame : Type := mkGame {
  _game_board : list (Z * GameSpace.t);
  _players : list (string * Player.t)
}.

Definition RealEstateGame_init : RealEstateGame :=
  {| _game_board := []; _players := [] |}.

(** ** Exceptions and the method monad *)

Inductive exn : Type :=
| KeyError
| IndexError
| TypeError
| ZeroDivisionError.

Inductive result (A : Type) : Type :=
| Ok (a : A)
| Raise (e : exn).
Arguments Ok {A} a.
Arguments Raise {A} e.

Definition M (A : Type) : Type := RealEstateGame -> RealEstateGame * result A.

Definition ret {A : Type} (a : A) : M A := fun g => (g, Ok a).
Definition raise {A : Type} (e : exn) : M A := fun g => (g, Raise e).
Definition bind {A B : Type} (m : M A) (k : A -> M B) : M B :=
  fun g =>
    match m g with
    | (g', Ok a) => k a g'
    | (g', Raise e) => (g', Raise e)
    end.

Declare Scope py_scope.
Delimit Scope py_scope with py.
Notation "x <- m ;; k" := (bind m (fun x => k))
  (at level 100, m at next level, right associativity) : py_scope.
Notation "m ;;; k" := (bind m (fun _ => k))
  (at level 100, right associativity) : py_scope.
Open Scope py_scope.

(** [self._players[name]]: the player object, or KeyError. *)
Definition players_getitem (name : string) : M Player.t :=
  fun g =>
    match dict_get name (_players g) with
    | Some p => (g, Ok p)
    | None => (g, Raise KeyError)
    end.

(** A mutating method call on the player object stored under [name]. *)
Definition player_call (name : string) (f : Player.t -> Player.t) : M unit :=
  fun g =>
    ({| _game_board := _game_board g;
        _players := dict_update name f (_players g) |}, Ok tt).

(** [self._game_board[i][i]]: the list is indexed (IndexError), then the
    one-key dict found there is looked up with the same number (KeyError).
    The result is the slot holding the space object and the object read. *)
Definition board_getitem (i : Z) : M (nat * GameSpace.t) :=
  fun g =>
    match py_index (_game_board g) i with
    | None => (g, Raise IndexError)
    | Some slot =>
        match _game_board g !! slot with
        | None => (g, Raise IndexError)
        | Some (key, space) =>
            if key =? i then (g, Ok (slot, space)) else (g, Raise KeyError)
        end
    end.

(** The same with a space name: a list cannot be indexed by the string
    ['GO'] (TypeError). *)
Definition board_getitem_name (space_name0 : space_name) : M (nat * GameSpace.t) :=
  match space_name0 with
  | GO => raise TypeError
  | Num n => board_getitem n
  end.

(** A mutating method call on the space object held in [slot]. *)
Definition space_call (slot : nat) (f : GameSpace.t -> GameSpace.t) : M unit :=
  fun g =>
    ({| _game_board := alter (prod_map id f) slot (_game_board g);
        _players := _players g |}, Ok tt).

Definition board_len : M Z :=
  fun g => (g, Ok (Z.of_nat (length (_game_board g)))).

(** [a % b] on ints: the sign follows the divisor, as [Z.modulo] does. *)
Definition py_mod (a b : Z) : M Z :=
  if b =? 0 then raise ZeroDivisionError else ret (a mod b).

(** *** Methods *)

Definition create_spaces (go_money : Z) (rent_list : list Z) : M unit :=
  fun g =>
    ({| _game_board :=
          (_game_board g ++ [(0, GameSpace.init GO go_money)])
          ++ map (fun '(num, rent) => (num, GameSpace.init (Num num) rent))
                 (zip (seqZ 1 24) rent_list);
        _players := _players g |}, Ok tt).

Definition name_in_use_message : string :=
  "Player was not added to the game as this name is already in use.".

(** The value carried is what the call printed; Python returns None on
    both paths. *)
Definition create_player (player_name : string) (starting_account_balance : Z)
  : M (list string) :=
  fun g =>
    match dict_get player_name (_players g) with
    | Some _ => (g, Ok [name_in_use_message])
    | None =>
        ({| _game_board := _game_board g;
            _players := _players g
              ++ [(player_name, Player.init player_name starting_account_balance)] |},
         Ok [])
    end.

Definition get_player_account_balance (player_name : string) : M Z :=
  player_obj <- players_getitem player_name ;;
  ret (Player.get_current_account_balance player_obj).

Definition get_player_current_position (player_name : string) : M Z :=
  player_obj <- players_getitem player_name ;;
  ret (Player.get_location player_obj).

Definition is_GO (n : space_name) : bool :=
  match n with GO => true | Num _ => false end.

Definition buy_space (player_name : string) : M bool :=
  player_obj <- players_getitem player_name ;;
  let player_acct_bal := Player.get_current_account_balance player_obj in
  current <- board_getitem (Player.get_location player_obj) ;;
  let '(slot, current_space) := current in
  let current_space_owner := GameSpace.get_game_space_owner current_space in
  let purchase_price := GameSpace.get_purchase_price current_space in
  let space_name0 := GameSpace.get_game_space_name current_space in
  bal <- get_player_account_balance player_name ;;
  if (bal =? 0) || negb (bool_decide (current_space_owner = None))
     || is_GO space_name0 || (player_acct_bal <=? purchase_price)
  then ret false
  else
    player_call player_name (Player.withdraw purchase_price) ;;;
    player_call player_name (Player.buy_game_space space_name0) ;;;
    space_call slot (GameSpace.set_game_space_owner player_name) ;;;
    ret true.

Definition pass_go (player_name : string) : M unit :=
  go <- board_getitem 0 ;;
  let go_price := GameSpace.get_rent (snd go) in
  _ <- players_getitem player_name ;;
  player_call player_name (Player.deposit go_price).

Definition movement (player_name : string) (spaces_to_move : Z) : M unit :=
  player_obj <- players_getitem player_name ;;
  let player_location := Player.get_location player_obj in
  let move := player_location + spaces_to_move in
  len <- board_len ;;
  if move <? len - 1 then
    player_call player_name (Player.set_location (Num move))
  else
    new_location <- py_mod move len ;;
    player_call player_name (Player.set_location (Num new_location)) ;;;
    pass_go player_name.

(** The loop of [lose_game] over the owned-space list. *)
Fixpoint remove_owners (owned_spaces : list space_name) : M unit :=
  match owned_spaces with
  | [] => ret tt
  | space_name0 :: rest =>
      space_obj <- board_getitem_name space_name0 ;;
      space_call (fst space_obj) GameSpace.remove_game_space_owner ;;;
      remove_owners rest
  end.

Definition lose_game (player_name : string) : M unit :=
  player_obj <- players_getitem player_name ;;
  let owned_spaces := Player.get_owned_game_spaces player_obj in
  remove_owners owned_spaces ;;;
  player_call player_name Player.clear_owned_game_spaces.

Definition pay_rent (player_name : string) : M unit :=
  _ <- players_getitem player_name ;;
  bal <- get_player_account_balance player_name ;;
  pos <- get_player_current_position player_name ;;
  location <- board_getitem pos ;;
  let location_obj := snd location in
  let rent := GameSpace.get_rent location_obj in
  match GameSpace.get_game_space_owner location_obj with
  | None => ret tt
  | Some owner =>
      if String.eqb owner "GO" then ret tt
      else
        _ <- players_getitem owner ;;
        if rent <? bal then
          player_call player_name (Player.withdraw rent) ;;;
          player_call owner (Player.deposit rent)
        else
          player_call player_name (Player.withdraw bal) ;;;
          player_call owner (Player.deposit bal) ;;;
          lose_game player_name
  end.

Definition move_player (player_name : string) (spaces_to_move : Z) : M unit :=
  bal <- get_player_account_balance player_name ;;
  if bal =? 0 then ret tt
  else
    movement player_name spaces_to_move ;;;
    pay_rent player_name.

(** The scan of [check_game_over]: [counter] and [winner] after the loop.
    Python's None is [None]; a name [n] is [Some n]. *)
Definition scan_players (d : list (string * Player.t)) : Z * option string :=
  fold_left
    (fun (acc : Z * option string) (dict_entry : string) =>
       match dict_get dict_entry d with
       | Some player_obj =>
           if Player.get_current_account_balance player_obj =? 0
           then (fst acc + 1, snd acc)
           else (fst acc, Some (Player.get_player_name player_obj))
       | None => acc
       end)
    (dict_keys d) (0, None).

Definition check_game_over : M (option string) :=
  fun g =>
    let '(counter, winner) := scan_players (_players g) in
    (g, Ok (if counter =? 1 then winner else Some "")).

Definition get_list_of_player_owned_spaces (player_name : string)
  : M (list space_name) :=
  player_obj <- players_getitem player_name ;;
  ret (Player.get_owned_game_spaces player_obj).

(** ** The public interface as a transition system

    A call of a public method, with its arguments; [exec] is the state
    after the call returned or raised. *)

Inductive call : Type :=
| Call_create_player (player_name : string) (starting_account_balance : Z)
| Call_get_player_account_balance (player_name : string)
| Call_get_player_current_position (player_name : string)
| Call_buy_space (player_name : string)
| Call_move_player (player_name : string) (spaces_to_move : Z)
| Call_check_game_over
| Call_get_list_of_player_owned_spaces (player_name : string).

Definition exec (c : call) (g : RealEstateGame) : RealEstateGame :=
  match c with
  | Call_create_player n b => fst (create_player n b g)
  | Call_get_player_account_balance n => fst (get_player_account_balance n g)
  | Call_get_player_current_position n => fst (get_player_current_position n g)
  | Call_buy_space n => fst (buy_space n g)
  | Call_move_player n k => fst (move_player n k g)
  | Call_check_game_over => fst (check_game_over g)
  | Call_get_list_of_player_owned_spaces n =>
      fst (get_list_of_player_owned_spaces n g)
  end.

(** Players are created with a nonnegative starting balance. *)
Definition admissible (c : call) : Prop :=
  match c with
  | Call_create_player _ b => 0 <= b
  | _ => True
  end.

(** A fresh game: [__init__], then [create_spaces] once, with a positive GO
    payout and 24 positive rents. *)
Definition fresh_game (go_money : Z) (rent_list : list Z) : RealEstateGame :=
  fst (create_spaces go_money rent_list RealEstateGame_init).

Inductive reachable : RealEstateGame -> Prop :=
| reachable_fresh go_money rent_list :
    0 < go_money ->
    length rent_list = 24%nat ->
    Forall (fun r => 0 < r) rent_list ->
    reachable (fresh_game go_money rent_list)
| reachable_call g c :
    reachable g -> admissible c -> reachable (exec c g).

Definition exec_all (cs : list call) (g : RealEstateGame) : RealEstateGame :=
  fold_left (fun g c => exec c g) cs g.

(** Views of the state used in the statements. *)
Definition player_of (g : RealEstateGame) (name : string) : option Player.t :=
  dict_get name (_players g).

Definition owner_at (b : list (Z * GameSpace.t)) (i : nat) : option string :=
  match b !! i with
  | Some (_, s) => GameSpace._game_space_owner s
  | None => None
  end.

(** ** Predicates and example games used in the statements *)

(** A well-formed board has 25 slots; slot [i] holds the dict with key [i]
    and the space named ['GO'] (slot 0) or [i], with a positive rent and five
    times that as purchase price.  Nobody owns GO. *)
Definition space_shape (i : nat) (key : Z) (s : GameSpace.t) : Prop :=
  key = Z.of_nat i
  /\ GameSpace._game_space_name s
     = (if decide (i = 0%nat) then GO else Num (Z.of_nat i))
  /\ 0 < GameSpace._rent s
  /\ GameSpace._purchase_price s = GameSpace._rent s * 5.

Definition board_ok (b : list (Z * GameSpace.t)) : Prop :=
  length b = 25%nat
  /\ (forall i key s, b !! i = Some (key, s) -> space_shape i key s)
  /\ owner_at b 0 = None.

(** A mutator that touches the owner field only. *)
Definition owner_only (f : GameSpace.t -> GameSpace.t) : Prop :=
  forall s, GameSpace._game_space_name (f s) = GameSpace._game_space_name s
            /\ GameSpace._rent (f s) = GameSpace._rent s
            /\ GameSpace._purchase_price (f s) = GameSpace._purchase_price s.

(** The game with another players dict, and with another board. *)
Definition with_players (g : RealEstateGame) (ps : list (string * Player.t))
  : RealEstateGame :=
  {| _game_board := _game_board g; _players := ps |}.

Definition with_board (g : RealEstateGame) (b : list (Z * GameSpace.t))
  : RealEstateGame :=
  {| _game_board := b; _players := _players g |}.

(** The test of [buy_space], and the state after a purchase. *)
Definition buy_space_refused (pl : Player.t) (sp : GameSpace.t) : bool :=
  (Player._account_balance pl =? 0)
  || negb (bool_decide (GameSpace._game_space_owner sp = None))
  || is_GO (GameSpace._game_space_name sp)
  || (Player._account_balance pl <=? GameSpace._purchase_price sp).

Definition bought (g : RealEstateGame) (name : string) (slot : nat)
    (sp : GameSpace.t) : RealEstateGame :=
  {| _game_board :=
       alter (prod_map id (GameSpace.set_game_space_owner name)) slot
         (_game_board g);
     _players :=
       dict_update name (Player.buy_game_space (GameSpace._game_space_name sp))
         (dict_update name (Player.withdraw (GameSpace._purchase_price sp))
            (_players g)) |}.

(** [player.withdraw(amount)] then [owner_obj.deposit(amount)], both on the
    players dict: on one and the same object when [name = owner]. *)
Definition rent_paid (g : RealEstateGame) (name owner : string) (amount : Z)
  : RealEstateGame :=
  with_players g
    (dict_update owner (Player.deposit amount)
       (dict_update name (Player.withdraw amount) (_players g))).

(** Owned-space names that are numbers of board slots. *)
Definition on_board (l : list space_name) : Prop :=
  forall n, n ∈ l -> exists i : nat, n = Num (Z.of_nat i) /\ (i < 25)%nat.

(** The invariant of reachable states: a well-formed board, balances at
    least 0, a player without money owns nothing and stands on the board,
    and owner fields and owned-space lists agree. *)
Record Inv (g : RealEstateGame) : Prop := {
  inv_board : board_ok (_game_board g);
  inv_balance : forall p pl,
    player_of g p = Some pl -> 0 <= Player._account_balance pl;
  inv_zero : forall p pl,
    player_of g p = Some pl -> Player._account_balance pl = 0 ->
    Player._owned_game_spaces pl = [] /\ 0 <= Player.get_location pl < 25;
  inv_nodup : forall p pl,
    player_of g p = Some pl -> NoDup (Player._owned_game_spaces pl);
  inv_owned : forall p pl n,
    player_of g p = Some pl -> n ∈ Player._owned_game_spaces pl ->
    exists i : nat, n = Num (Z.of_nat i) /\ owner_at (_game_board g) i = Some p;
  inv_owner : forall i o,
    owner_at (_game_board g) i = Some o ->
    exists pl, player_of g o = Some pl
               /\ Num (Z.of_nat i) ∈ Player._owned_game_spaces pl
}.

(** The player object after [movement] on a board of 25 slots. *)
Definition moved (pl : Player.t) (k go_price : Z) : Player.t :=
  let move := Player.get_location pl + k in
  if move <? 24 then Player.set_location (Num move) pl
  else Player.deposit go_price (Player.set_location (Num (move mod 25)) pl).

(** GO pays 5, every space has rent 50 and price 250. *)
Definition demo_fresh : RealEstateGame := fresh_game 5 (replicate 24 50).

(** "A" starts with 260, moves to space 1 and buys it: 10 left. *)
Definition demo_bought : RealEstateGame :=
  exec_all [Call_create_player "A" 260; Call_move_player "A" 1;
            Call_buy_space "A"] demo_fresh.

(** "B" joins with 30 and lands on the space of "A". *)
Definition demo_two_players : RealEstateGame :=
  exec_all [Call_create_player "B" 30] demo_bought.

(** "B" moves one space onto the space of "A": the rent of 50 is not below
    the 30 that "B" has, so "B" pays 30 and is out. *)
Definition demo_eliminated : RealEstateGame :=
  exec_all [Call_move_player "B" 1] demo_two_players.

(** "A" with 260 on space 1, before buying it. *)
Definition demo_moved : RealEstateGame :=
  exec_all [Call_create_player "A" 260; Call_move_player "A" 1] demo_fresh.

(** Three players, one of them without money. *)
Definition demo_one_out : RealEstateGame :=
  exec_all [Call_create_player "A" 100; Call_create_player "B" 0;
            Call_create_player "C" 100] (fresh_game 200 (replicate 24 50)).

(** Three players, two of them without money. *)
Definition demo_two_out : RealEstateGame :=
  exec_all [Call_create_player "A" 0; Call_create_player "B" 0;
            Call_create_player "C" 100] (fresh_game 200 (replicate 24 50)).

(** The example games are reachable: one [reachable_call] per call. *)
Ltac solve_reachable :=
  unfold demo_one_out, demo_two_out, demo_eliminated, demo_two_players,
    demo_moved, demo_bought, demo_fresh, exec_all;
  cbn [fold_left];
  repeat (apply reachable_call; [|simpl; try exact I; lia]);
  apply reachable_fresh; [lia|reflexivity|repeat constructor].

(** The preconditions of a purchase, as the specification lists them. *)
Definition may_buy (pl : Player.t) (sp : GameSpace.t) : Prop :=
  0 < Player._account_balance pl
  /\ GameSpace._game_space_name sp <> GO
  /\ GameSpace._game_space_owner sp = None
  /\ GameSpace._purchase_price sp < Player._account_balance pl.


(** The balance of a player, when registered. *)
Definition balance_of (g : RealEstateGame) (name : string) : option Z :=
  Player._account_balance <$> player_of g name.

(** The rent settlement as the specification describes it, for the lander
    [name] (record [pl]) on the space [sp] with owner [owner]. *)
Definition rent_settlement (g : RealEstateGame) (name owner : string)
    (pl : Player.t) (sp : GameSpace.t) : Prop :=
  let bal := Player._account_balance pl in
  let rent := GameSpace._rent sp in
  let g' := fst (pay_rent name g) in
  exists ol,
    player_of g owner = Some ol
    /\ snd (pay_rent name g) = Ok tt
    /\ (rent < bal ->
        player_of g' name
        = Some {| Player._player_name := Player._player_name pl;
                  Player._account_balance := bal - rent;
                  Player._current_location := Player._current_location pl;
                  Player._owned_game_spaces := Player._owned_game_spaces pl |}
        /\ player_of g' owner
           = Some {| Player._player_name := Player._player_name ol;
                     Player._account_balance := Player._account_balance ol + rent;
                     Player._current_location := Player._current_location ol;
                     Player._owned_game_spaces := Player._owned_game_spaces ol |}
        /\ bal - rent <> 0
        /\ _game_board g' = _game_board g)
    /\ (bal <= rent ->
        player_of g' name
        = Some {| Player._player_name := Player._player_name pl;
                  Player._account_balance := 0;
                  Player._current_location := Player._current_location pl;
                  Player._owned_game_spaces := [] |}
        /\ player_of g' owner
           = Some {| Player._player_name := Player._player_name ol;
                     Player._account_balance := Player._account_balance ol + bal;
                     Player._current_location := Player._current_location ol;
                     Player._owned_game_spaces := Player._owned_game_spaces ol |}
        /\ forall i, owner_at (_game_board g) i = Some name ->
                     owner_at (_game_board g') i = None).

(** ** Play with any starting balances

    The states built from a fresh game by public calls with arguments of
    any kind: [create_player] may here be given a negative starting
    balance. *)
Inductive played : RealEstateGame -> Prop :=
| played_fresh go_money rent_list :
    0 < go_money ->
    length rent_list = 24%nat ->
    Forall (fun r => 0 < r) rent_list ->
    played (fresh_game go_money rent_list)
| played_call g c :
    played g -> played (exec c g).

(** "A" (255) buys space 1 and keeps 5.  "N" is created with -5 and lands
    on space 1: the rent of 50 is not below -5, so -5 is "paid": "N" ends at
    0 and "A" at 0, still owning space 1.  Then "C" joins with 100. *)
Definition demo_debtor : RealEstateGame :=
  exec_all [Call_create_player "A" 255; Call_move_player "A" 1;
            Call_buy_space "A"; Call_create_player "N" (-5);
            Call_move_player "N" 1; Call_create_player "C" 100] demo_fresh.

(** The example games above are played games: one [played_call] per call. *)
Ltac solve_played :=
  unfold demo_debtor, demo_eliminated, demo_two_players, demo_moved,
    demo_bought, demo_fresh, exec_all;
  cbn [fold_left];
  repeat apply played_call;
  apply played_fresh; [lia|reflexivity|repeat constructor].

(** ** Measures of a game used in the further properties *)

(** The money in the game: the sum of the balances of all players. *)
Definition total_money (g : RealEstateGame) : Z :=
  foldr (fun e acc => Player._account_balance e.2 + acc) 0 (_players g).

(** What [create_spaces] fixes of a board: per slot the dict key and the
    space's name, rent and purchase price (everything but the owner). *)
Definition skeleton (b : list (Z * GameSpace.t))
  : list (Z * space_name * Z * Z) :=
  (fun e => (e.1, GameSpace._game_space_name e.2, GameSpace._rent e.2,
             GameSpace._purchase_price e.2)) <$> b.

(** The registry: per entry of the players dict, in order, its key and the
    name stored in the player object. *)
Definition registry (g : RealEstateGame) : list (string * string) :=
  (fun e => (e.1, Player._player_name e.2)) <$> _players g.

(** A dict entry of a player without money, as [check_game_over] tests it. *)
Definition out_of_money (e : string * Player.t) : bool :=
  Player._account_balance e.2 =? 0.

(** A step that keeps the board's skeleton and the registry. *)
Definition keeps (g g' : RealEstateGame) : Prop :=
  skeleton (_game_board g') = skeleton (_game_board g)
  /\ registry g' = registry g.

(** * Properties *)

(** ** The players dict *)

Section DictFacts.
Context {V : Type}.
Implicit Types (d : list (string * V)) (k : string) (f : V -> V).

Lemma dict_get_update_eq k f d :
  dict_get k (dict_update k f d) = f <$> dict_get k d.
Proof.
  induction d as [|[k' v] d IH]; simpl; [reflexivity|].
  destruct (String.eqb k k') eqn:E; simpl; rewrite E; [reflexivity|exact IH].
Qed.

Lemma dict_get_update_ne k k' f d :
  k <> k' -> dict_get k' (dict_update k f d) = dict_get k' d.
Proof.
  intros Hne. induction d as [|[k0 v] d IH]; simpl; [reflexivity|].
  destruct (String.eqb k k0) eqn:E; simpl.
  - apply String.eqb_eq in E. subst k0.
    destruct (String.eqb k' k) eqn:E'; [|reflexivity].
    apply String.eqb_eq in E'. congruence.
  - rewrite IH. reflexivity.
Qed.

Lemma dict_get_update k k' f d :
  dict_get k' (dict_update k f d)
  = if String.eqb k k' then f <$> dict_get k' d else dict_get k' d.
Proof.
  destruct (String.eqb k k') eqn:E.
  - apply String.eqb_eq in E. subst. apply dict_get_update_eq.
  - apply String.eqb_neq in E. by apply dict_get_update_ne.
Qed.

Lemma dict_get_snoc k k' v d :
  dict_get k (d ++ [(k', v)])
  = match dict_get k d with
    | Some x => Some x
    | None => if String.eqb k k' then Some v else None
    end.
Proof.
  induction d as [|[k0 v0] d IH]; simpl; [reflexivity|].
  destruct (String.eqb k k0); [reflexivity|exact IH].
Qed.

Lemma dict_update_ext k f f' d :
  (forall v, dict_get k d = Some v -> f v = f' v) ->
  dict_update k f d = dict_update k f' d.
Proof.
  induction d as [|[k0 v0] d IH]; simpl; intros Hf; [reflexivity|].
  destruct (String.eqb k k0) eqn:E.
  - by rewrite Hf.
  - by rewrite IH.
Qed.

Lemma dict_update_id k f d :
  (forall v, dict_get k d = Some v -> f v = v) -> dict_update k f d = d.
Proof.
  induction d as [|[k0 v0] d IH]; simpl; intros Hf; [reflexivity|].
  destruct (String.eqb k k0) eqn:E.
  - by rewrite Hf.
  - by rewrite IH.
Qed.

Lemma dict_update_absent k f d :
  dict_get k d = None -> dict_update k f d = d.
Proof. intros H. apply dict_update_id. intros v Hv. congruence. Qed.

Lemma dict_update_update k f f' d :
  dict_update k f' (dict_update k f d) = dict_update k (fun v => f' (f v)) d.
Proof.
  induction d as [|[k0 v0] d IH]; simpl; [reflexivity|].
  destruct (String.eqb k k0) eqn:E; simpl; rewrite E; [reflexivity|].
  by rewrite IH.
Qed.
End DictFacts.

(** ** Reading the state never changes it *)

Lemma game_eta g :
  {| _game_board := _game_board g; _players := _players g |} = g.
Proof. by destruct g. Qed.

Lemma players_getitem_Some g name pl :
  player_of g name = Some pl -> players_getitem name g = (g, Ok pl).
Proof. unfold player_of, players_getitem. by intros ->. Qed.

Lemma players_getitem_None g name :
  player_of g name = None -> players_getitem name g = (g, Raise KeyError).
Proof. unfold player_of, players_getitem. by intros ->. Qed.

Lemma get_player_account_balance_Some g name pl :
  player_of g name = Some pl ->
  get_player_account_balance name g = (g, Ok (Player._account_balance pl)).
Proof.
  intros H. unfold get_player_account_balance, bind.
  by rewrite (players_getitem_Some _ _ _ H).
Qed.

Lemma get_player_current_position_Some g name pl :
  player_of g name = Some pl ->
  get_player_current_position name g = (g, Ok (Player.get_location pl)).
Proof.
  intros H. unfold get_player_current_position, bind.
  by rewrite (players_getitem_Some _ _ _ H).
Qed.

Lemma board_getitem_fst i g : fst (board_getitem i g) = g.
Proof.
  unfold board_getitem.
  destruct (py_index _ i) as [slot|]; [|reflexivity].
  destruct (_ !! slot) as [[key sp]|]; [|reflexivity].
  by destruct (key =? i).
Qed.

Lemma board_getitem_Ok i g g' slot sp :
  board_getitem i g = (g', Ok (slot, sp)) ->
  g' = g /\ py_index (_game_board g) i = Some slot
  /\ _game_board g !! slot = Some (i, sp).
Proof.
  unfold board_getitem.
  destruct (py_index _ i) as [slot'|]; [|discriminate].
  destruct (_ !! slot') as [[key sp']|] eqn:E; [|discriminate].
  destruct (key =? i) eqn:K; [|discriminate].
  apply Z.eqb_eq in K. intros [= <- <- <-]. subst. auto.
Qed.

Lemma py_index_nonneg {A} (l : list A) i slot :
  0 <= i -> py_index l i = Some slot ->
  slot = Z.to_nat i /\ (slot < length l)%nat.
Proof.
  intros Hi. unfold py_index.
  destruct (0 <=? i) eqn:E; [|lia].
  destruct (i <? _) eqn:E'; [|discriminate].
  intros [= <-]. split; [reflexivity|lia].
Qed.

(** ** The board *)

Lemma owner_only_set name : owner_only (GameSpace.set_game_space_owner name).
Proof. by intros s. Qed.

Lemma owner_only_remove : owner_only GameSpace.remove_game_space_owner.
Proof. by intros s. Qed.

Lemma owner_at_alter (b : list (Z * GameSpace.t)) f slot i :
  owner_at (alter (prod_map id f) slot b) i
  = if decide (slot = i)
    then match b !! i with
         | Some (_, s) => GameSpace._game_space_owner (f s)
         | None => None
         end
    else owner_at b i.
Proof.
  unfold owner_at. destruct (decide (slot = i)) as [->|Hne].
  - rewrite list_lookup_alter_eq. by destruct (b !! i) as [[key s]|].
  - by rewrite list_lookup_alter_ne.
Qed.

Lemma board_ok_alter b f slot :
  board_ok b -> owner_only f ->
  (slot = 0%nat -> forall s, GameSpace._game_space_owner (f s) = None) ->
  board_ok (alter (prod_map id f) slot b).
Proof.
  intros (Hlen & Hshape & Hgo) Hf H0. split; [|split].
  - by rewrite length_alter.
  - intros i key s. destruct (decide (slot = i)) as [->|Hne].
    + rewrite list_lookup_alter_eq.
      destruct (b !! i) as [[key' s']|] eqn:E; [|discriminate].
      simpl. intros [= <- <-].
      destruct (Hshape _ _ _ E) as (? & ? & ? & ?).
      destruct (Hf s') as (Hn & Hr & Hp).
      unfold space_shape. rewrite Hn, Hr, Hp. auto.
    + rewrite list_lookup_alter_ne by done. apply Hshape.
  - rewrite owner_at_alter. destruct (decide (slot = 0%nat)) as [E|]; [|done].
    destruct (b !! 0%nat) as [[key s]|]; [|done]. by apply H0.
Qed.

Lemma fresh_board_eq go_money rent_list :
  _game_board (fresh_game go_money rent_list)
  = (0, GameSpace.init GO go_money)
    :: ((fun e : Z * Z => (e.1, GameSpace.init (Num e.1) e.2))
          <$> zip (seqZ 1 24) rent_list).
Proof.
  unfold fresh_game, create_spaces, RealEstateGame_init.
  cbn [fst _game_board app]. f_equal.
  generalize (zip (seqZ 1 24) rent_list) as l.
  induction l as [|[num rent] l IH]; [reflexivity|].
  cbn [map fmap list_fmap fst snd]. f_equal. exact IH.
Qed.

Lemma fresh_board_lookup go_money rent_list (i : nat) :
  length rent_list = 24%nat ->
  _game_board (fresh_game go_money rent_list) !! i
  = match i with
    | O => Some (0, GameSpace.init GO go_money)
    | S j => (fun r => (1 + Z.of_nat j, GameSpace.init (Num (1 + Z.of_nat j)) r))
               <$> rent_list !! j
    end.
Proof.
  intros Hlen. rewrite fresh_board_eq, lookup_cons.
  destruct i as [|j]; [reflexivity|].
  rewrite list_lookup_fmap.
  destruct (rent_list !! j) as [r|] eqn:E.
  - assert (j < 24)%nat as Hj by (rewrite <- Hlen; by eapply lookup_lt_Some).
    assert (zip (seqZ 1 24) rent_list !! j = Some (1 + Z.of_nat j, r)) as ->;
      [|reflexivity].
    apply lookup_zip_with_Some. exists (1 + Z.of_nat j), r.
    split; [reflexivity|]. split; [|exact E].
    apply lookup_seqZ. lia.
  - assert (zip (seqZ 1 24) rent_list !! j = None) as ->; [|reflexivity].
    apply lookup_zip_with_None. by right.
Qed.

Lemma board_ok_fresh go_money rent_list :
  0 < go_money -> length rent_list = 24%nat ->
  Forall (fun r => 0 < r) rent_list ->
  board_ok (_game_board (fresh_game go_money rent_list)).
Proof.
  intros Hgo Hlen Hpos. split; [|split].
  - rewrite fresh_board_eq. cbn [length].
    rewrite length_fmap, length_zip_with, length_seqZ. lia.
  - intros i key s. rewrite fresh_board_lookup by done.
    destruct i as [|j].
    + intros [= <- <-]. by repeat split.
    + destruct (rent_list !! j) as [r|] eqn:E; [|discriminate].
      simpl. intros [= <- <-].
      pose proof (proj1 (Forall_lookup _ _) Hpos _ _ E) as Hr.
      unfold space_shape. simpl.
      destruct (decide (S j = 0%nat)) as [|_]; [lia|].
      repeat split; [lia|f_equal; lia|exact Hr].
  - unfold owner_at. by rewrite fresh_board_lookup.
Qed.

Lemma owner_at_fresh go_money rent_list i :
  length rent_list = 24%nat ->
  owner_at (_game_board (fresh_game go_money rent_list)) i = None.
Proof.
  intros Hlen. unfold owner_at. rewrite fresh_board_lookup by done.
  destruct i as [|j]; [reflexivity|]. by destruct (rent_list !! j).
Qed.

Lemma board_getitem_shape g i g' slot sp :
  board_ok (_game_board g) ->
  board_getitem i g = (g', Ok (slot, sp)) ->
  g' = g /\ 0 <= i < 25 /\ slot = Z.to_nat i
  /\ _game_board g !! slot = Some (i, sp) /\ space_shape slot i sp.
Proof.
  intros (Hlen & Hshape & _) H.
  apply board_getitem_Ok in H as (-> & Hidx & Hlook).
  pose proof (Hshape _ _ _ Hlook) as Hs.
  pose proof (lookup_lt_Some _ _ _ Hlook) as Hlt.
  pose proof Hs as (Hkey & _).
  split; [reflexivity|]. split; [lia|]. split; [lia|]. by split.
Qed.

Lemma board_getitem_in_range g i :
  board_ok (_game_board g) -> 0 <= i < 25 ->
  exists sp, board_getitem i g = (g, Ok (Z.to_nat i, sp))
             /\ _game_board g !! Z.to_nat i = Some (i, sp).
Proof.
  intros (Hlen & Hshape & _) Hi.
  destruct (lookup_lt_is_Some_2 (_game_board g) (Z.to_nat i)) as [[key sp] E];
    [lia|].
  pose proof (Hshape _ _ _ E) as (Hkey & _).
  assert (key = i) as -> by lia.
  exists sp. split; [|exact E].
  unfold board_getitem, py_index. rewrite Hlen.
  rewrite (proj2 (Z.leb_le 0 i)) by lia.
  rewrite (proj2 (Z.ltb_lt i (Z.of_nat 25))) by lia.
  rewrite E. by rewrite Z.eqb_refl.
Qed.

Lemma board_getitem_out_of_range g i :
  board_ok (_game_board g) -> ~ 0 <= i < 25 ->
  exists e, board_getitem i g = (g, Raise e).
Proof.
  intros Hb Hi. destruct (board_getitem i g) as [g' [[slot sp]|e]] eqn:E.
  - apply board_getitem_shape in E; [|done]. lia.
  - exists e. pose proof (board_getitem_fst i g) as F. rewrite E in F.
    simpl in F. by subst.
Qed.

(** ** The methods, unfolded

    Each lemma reads one method off its definition once the lookups it
    starts with are known. *)

Lemma buy_space_unfold g name pl slot sp :
  player_of g name = Some pl ->
  board_getitem (Player.get_location pl) g = (g, Ok (slot, sp)) ->
  buy_space name g
  = if buy_space_refused pl sp then (g, Ok false)
    else (bought g name slot sp, Ok true).
Proof.
  intros Hp Hs. unfold buy_space, bind.
  rewrite (players_getitem_Some _ _ _ Hp), Hs.
  rewrite (get_player_account_balance_Some _ _ _ Hp).
  unfold buy_space_refused, Player.get_current_account_balance,
    GameSpace.get_game_space_owner, GameSpace.get_purchase_price,
    GameSpace.get_game_space_name.
  by destruct (_ || _ || _ || _).
Qed.

Lemma buy_space_unregistered g name :
  player_of g name = None -> buy_space name g = (g, Raise KeyError).
Proof.
  intros Hp. unfold buy_space, bind. by rewrite (players_getitem_None _ _ Hp).
Qed.

Lemma buy_space_off_board g name pl e :
  player_of g name = Some pl ->
  board_getitem (Player.get_location pl) g = (g, Raise e) ->
  buy_space name g = (g, Raise e).
Proof.
  intros Hp Hs. unfold buy_space, bind.
  by rewrite (players_getitem_Some _ _ _ Hp), Hs.
Qed.

Lemma pass_go_unfold g name pl slot gosp :
  board_getitem 0 g = (g, Ok (slot, gosp)) ->
  player_of g name = Some pl ->
  pass_go name g
  = (with_players g
       (dict_update name (Player.deposit (GameSpace._rent gosp)) (_players g)),
     Ok tt).
Proof.
  intros Hs Hp. unfold pass_go, bind.
  by rewrite Hs, (players_getitem_Some _ _ _ Hp).
Qed.

Lemma movement_unfold g name pl k :
  player_of g name = Some pl ->
  movement name k g
  = let move := Player.get_location pl + k in
    let len := Z.of_nat (length (_game_board g)) in
    if move <? len - 1 then
      (with_players g
         (dict_update name (Player.set_location (Num move)) (_players g)),
       Ok tt)
    else if len =? 0 then (g, Raise ZeroDivisionError)
    else
      pass_go name
        (with_players g
           (dict_update name (Player.set_location (Num (move mod len)))
              (_players g))).
Proof.
  intros Hp. unfold movement, bind.
  rewrite (players_getitem_Some _ _ _ Hp). unfold board_len. cbv zeta.
  destruct (_ <? _); [reflexivity|].
  unfold py_mod. by destruct (_ =? 0).
Qed.

Lemma lose_game_unfold g name pl :
  player_of g name = Some pl ->
  lose_game name g
  = match remove_owners (Player._owned_game_spaces pl) g with
    | (g', Ok _) =>
        (with_players g'
           (dict_update name Player.clear_owned_game_spaces (_players g')),
         Ok tt)
    | (g', Raise e) => (g', Raise e)
    end.
Proof.
  intros Hp. unfold lose_game, bind.
  by rewrite (players_getitem_Some _ _ _ Hp).
Qed.

Lemma pay_rent_unfold g name pl slot sp :
  player_of g name = Some pl ->
  board_getitem (Player.get_location pl) g = (g, Ok (slot, sp)) ->
  pay_rent name g
  = match GameSpace._game_space_owner sp with
    | None => (g, Ok tt)
    | Some owner =>
        if String.eqb owner "GO" then (g, Ok tt)
        else match player_of g owner with
             | None => (g, Raise KeyError)
             | Some _ =>
                 if GameSpace._rent sp <? Player._account_balance pl
                 then (rent_paid g name owner (GameSpace._rent sp), Ok tt)
                 else lose_game name
                        (rent_paid g name owner (Player._account_balance pl))
             end
    end.
Proof.
  intros Hp Hs. unfold pay_rent, bind.
  rewrite (players_getitem_Some _ _ _ Hp).
  rewrite (get_player_account_balance_Some _ _ _ Hp).
  rewrite (get_player_current_position_Some _ _ _ Hp), Hs.
  unfold GameSpace.get_game_space_owner, GameSpace.get_rent. cbn [snd].
  destruct (GameSpace._game_space_owner sp) as [owner|]; [|reflexivity].
  destruct (String.eqb owner "GO"); [reflexivity|].
  unfold players_getitem, player_of.
  destruct (dict_get owner (_players g)); [|reflexivity].
  by destruct (_ <? _).
Qed.

Lemma pay_rent_unregistered g name :
  player_of g name = None -> pay_rent name g = (g, Raise KeyError).
Proof.
  intros Hp. unfold pay_rent, bind. by rewrite (players_getitem_None _ _ Hp).
Qed.

Lemma pay_rent_off_board g name pl e :
  player_of g name = Some pl ->
  board_getitem (Player.get_location pl) g = (g, Raise e) ->
  pay_rent name g = (g, Raise e).
Proof.
  intros Hp Hs. unfold pay_rent, bind.
  rewrite (players_getitem_Some _ _ _ Hp).
  rewrite (get_player_account_balance_Some _ _ _ Hp).
  by rewrite (get_player_current_position_Some _ _ _ Hp), Hs.
Qed.

Lemma move_player_unfold g name pl k :
  player_of g name = Some pl ->
  move_player name k g
  = if Player._account_balance pl =? 0 then (g, Ok tt)
    else match movement name k g with
         | (g1, Ok _) => pay_rent name g1
         | (g1, Raise e) => (g1, Raise e)
         end.
Proof.
  intros Hp. unfold move_player, bind.
  rewrite (get_player_account_balance_Some _ _ _ Hp).
  by destruct (_ =? 0).
Qed.

Lemma move_player_unregistered g name k :
  player_of g name = None -> move_player name k g = (g, Raise KeyError).
Proof.
  intros Hp. unfold move_player, get_player_account_balance, bind.
  by rewrite (players_getitem_None _ _ Hp).
Qed.

(** ** The loop of [lose_game] *)

Lemma board_getitem_with_players g ps i :
  board_getitem i (with_players g ps)
  = (with_players g ps, snd (board_getitem i g)).
Proof.
  unfold board_getitem, with_players. cbn [_game_board].
  destruct (py_index _ i) as [slot|]; [|reflexivity].
  destruct (_ !! slot) as [[key sp]|]; [|reflexivity].
  by destruct (key =? i).
Qed.

Lemma board_getitem_name_with_players g ps n :
  board_getitem_name n (with_players g ps)
  = (with_players g ps, snd (board_getitem_name n g)).
Proof. destruct n; [reflexivity|apply board_getitem_with_players]. Qed.

Lemma board_getitem_name_fst n g : fst (board_getitem_name n g) = g.
Proof. destruct n; [reflexivity|apply board_getitem_fst]. Qed.

(** The loop reads and writes the board only. *)
Lemma remove_owners_with_players l : forall g ps,
  remove_owners l (with_players g ps)
  = (with_players (fst (remove_owners l g)) ps, snd (remove_owners l g)).
Proof.
  induction l as [|n l IH]; intros g ps; [reflexivity|].
  cbn [remove_owners]. unfold bind at 1 3 5.
  rewrite board_getitem_name_with_players.
  pose proof (board_getitem_name_fst n g) as F.
  destruct (board_getitem_name n g) as [g0 [[slot sp]|e]]; simpl in F; subst g0;
    [|reflexivity].
  cbn [snd fst]. unfold bind, space_call. cbn [_game_board _players with_players].
  apply (IH (with_board g _) ps).
Qed.

Lemma remove_owners_players l : forall g,
  _players (fst (remove_owners l g)) = _players g.
Proof.
  induction l as [|n l IH]; intros g; [reflexivity|].
  cbn [remove_owners]. unfold bind at 1.
  pose proof (board_getitem_name_fst n g) as F.
  destruct (board_getitem_name n g) as [g0 [[slot sp]|e]]; simpl in F; subst g0;
    [|reflexivity].
  unfold bind, space_call. cbn [fst]. by rewrite IH.
Qed.

Lemma remove_owners_ok l : forall g,
  board_ok (_game_board g) -> on_board l ->
  exists b,
    remove_owners l g = (with_board g b, Ok tt)
    /\ board_ok b
    /\ forall i : nat,
         owner_at b i
         = if decide (Num (Z.of_nat i) ∈ l) then None
           else owner_at (_game_board g) i.
Proof.
  induction l as [|n l IH]; intros g Hb Hl.
  - exists (_game_board g). split; [|split; [done|]].
    + unfold with_board. by rewrite game_eta.
    + intros i. destruct (decide _) as [H|]; [|done]. by apply elem_of_nil in H.
  - destruct (Hl n) as (j & -> & Hj); [by left|].
    destruct (board_getitem_in_range g (Z.of_nat j) Hb) as (sp & Hget & Hlook);
      [lia|].
    rewrite Nat2Z.id in Hget, Hlook.
    set (b1 := alter (prod_map id GameSpace.remove_game_space_owner) j
                 (_game_board g)).
    assert (board_ok b1) as Hb1.
    { apply board_ok_alter; [done|apply owner_only_remove|done]. }
    destruct (IH (with_board g b1) Hb1) as (b & Hrun & Hb' & Hown).
    { intros n Hn. apply Hl. by right. }
    exists b. split; [|split; [done|]].
    + cbn [remove_owners board_getitem_name]. unfold bind at 1. rewrite Hget.
      unfold bind at 1. unfold space_call at 1. cbn [fst].
      exact Hrun.
    + intros i. rewrite Hown. cbn [with_board _game_board]. unfold b1.
      rewrite owner_at_alter.
      destruct (decide (Num (Z.of_nat i) ∈ l)) as [Hin|Hnin].
      * rewrite decide_True; [done|by right].
      * destruct (decide (j = i)) as [->|Hne].
        -- rewrite decide_True by (by left). by rewrite Hlook.
        -- rewrite decide_False; [done|].
           intros [E|?]%elem_of_cons; [|done].
           injection E as E. lia.
Qed.

(** ** The invariant of reachable states *)

Lemma owner_at_lt b i o : board_ok b -> owner_at b i = Some o -> (0 < i < 25)%nat.
Proof.
  intros (Hlen & _ & Hgo) H. split.
  - destruct i; [congruence|lia].
  - unfold owner_at in H. destruct (b !! i) eqn:E; [|discriminate].
    rewrite <- Hlen. by eapply lookup_lt_Some.
Qed.

Lemma Inv_on_board g p pl :
  Inv g -> player_of g p = Some pl -> on_board (Player._owned_game_spaces pl).
Proof.
  intros HI Hp n Hn.
  destruct (inv_owned g HI p pl n Hp Hn) as (i & -> & Ho).
  exists i. split; [reflexivity|].
  by apply (owner_at_lt _ _ _ (inv_board g HI)) in Ho as [_ ?].
Qed.

Lemma Inv_fresh go_money rent_list :
  0 < go_money -> length rent_list = 24%nat ->
  Forall (fun r => 0 < r) rent_list ->
  Inv (fresh_game go_money rent_list).
Proof.
  intros Hgo Hlen Hpos. split; try (intros p pl; discriminate).
  - by apply board_ok_fresh.
  - intros i o Ho. rewrite owner_at_fresh in Ho by done. discriminate.
Qed.

(** A method call on one player object that keeps its owned-space list, and
    leaves a zero balance only on a player who owns nothing and stands on
    the board. *)
Lemma Inv_update_player g p f :
  Inv g ->
  (forall pl, player_of g p = Some pl ->
     Player._owned_game_spaces (f pl) = Player._owned_game_spaces pl
     /\ 0 <= Player._account_balance (f pl)
     /\ (Player._account_balance (f pl) = 0 ->
         Player._owned_game_spaces pl = []
         /\ 0 <= Player.get_location (f pl) < 25)) ->
  Inv (with_players g (dict_update p f (_players g))).
Proof.
  intros HI Hf.
  assert (forall q ql', player_of (with_players g (dict_update p f (_players g))) q
                        = Some ql' ->
            exists ql, player_of g q = Some ql
              /\ Player._owned_game_spaces ql' = Player._owned_game_spaces ql
              /\ 0 <= Player._account_balance ql'
              /\ (Player._account_balance ql' = 0 ->
                  Player._owned_game_spaces ql = []
                  /\ 0 <= Player.get_location ql' < 25)) as Hback.
  { intros q ql'. unfold player_of, with_players. cbn [_players].
    rewrite dict_get_update. destruct (String.eqb p q) eqn:E.
    - apply String.eqb_eq in E. subst q.
      destruct (dict_get p (_players g)) as [pl|] eqn:Hp; [|discriminate].
      simpl. intros [= <-]. exists pl. split; [done|]. by apply Hf.
    - intros Hq. exists ql'. split; [done|]. split; [done|].
      split; [by eapply inv_balance|]. by eapply inv_zero. }
  split.
  - apply (inv_board g HI).
  - intros q ql' Hq. by destruct (Hback _ _ Hq) as (ql & _ & _ & ? & _).
  - intros q ql' Hq Hz. destruct (Hback _ _ Hq) as (ql & _ & -> & _ & H0).
    by apply H0.
  - intros q ql' Hq. destruct (Hback _ _ Hq) as (ql & Hql & -> & _).
    by eapply inv_nodup.
  - intros q ql' n Hq. destruct (Hback _ _ Hq) as (ql & Hql & -> & _).
    by apply (inv_owned g HI).
  - intros i o Ho. cbn [with_players _game_board] in Ho.
    destruct (inv_owner g HI i o Ho) as (ol & Hol & Hin).
    unfold player_of, with_players. cbn [_players].
    rewrite dict_get_update. destruct (String.eqb p o) eqn:E.
    + apply String.eqb_eq in E. subst o. unfold player_of in Hol.
      rewrite Hol. simpl. eexists. split; [reflexivity|].
      destruct (Hf ol Hol) as (-> & _). done.
    + by exists ol.
Qed.

Lemma Inv_create_player g name b :
  Inv g -> 0 <= b -> Inv (fst (create_player name b g)).
Proof.
  intros HI Hb. unfold create_player.
  destruct (dict_get name (_players g)) eqn:Hname; [done|]. cbn [fst].
  assert (forall q ql, player_of
            {| _game_board := _game_board g;
               _players := _players g ++ [(name, Player.init name b)] |} q
            = Some ql ->
          player_of g q = Some ql \/ ql = Player.init name b) as Hback.
  { intros q ql. unfold player_of. cbn [_players]. rewrite dict_get_snoc.
    destruct (dict_get q (_players g)); [by left|].
    destruct (String.eqb q name); [|discriminate]. intros [= <-]. by right. }
  split; cbn [_game_board].
  - apply (inv_board g HI).
  - intros q ql [Hq| ->]%Hback; [by eapply inv_balance|done].
  - intros q ql [Hq| ->]%Hback; [by eapply inv_zero|].
    intros _. split; [done|]. unfold Player.get_location. simpl. lia.
  - intros q ql [Hq| ->]%Hback; [by eapply inv_nodup|]. apply NoDup_nil_2.
  - intros q ql n Hq Hn. pose proof Hq as Hq'. apply Hback in Hq' as [Hq'| ->].
    + destruct (inv_owned g HI q ql n Hq' Hn) as (i & -> & Ho).
      exists i. done.
    + by apply elem_of_nil in Hn.
  - intros i o Ho. destruct (inv_owner g HI i o Ho) as (ol & Hol & Hin).
    exists ol. split; [|done]. unfold player_of in *. cbn [_players].
    rewrite dict_get_snoc. by rewrite Hol.
Qed.

Lemma dict_update_comm {V : Type} (k k' : string) (f f' : V -> V) d :
  k <> k' ->
  dict_update k f (dict_update k' f' d) = dict_update k' f' (dict_update k f d).
Proof.
  intros Hne. induction d as [|[k0 v0] d IH]; simpl; [reflexivity|].
  destruct (String.eqb k' k0) eqn:E'; destruct (String.eqb k k0) eqn:E; simpl;
    rewrite ?E, ?E'; try reflexivity.
  - apply String.eqb_eq in E, E'. congruence.
  - by rewrite IH.
Qed.

Lemma not_refused pl sp :
  buy_space_refused pl sp = false ->
  Player._account_balance pl <> 0
  /\ GameSpace._game_space_owner sp = None
  /\ GameSpace._game_space_name sp <> GO
  /\ GameSpace._purchase_price sp < Player._account_balance pl.
Proof.
  unfold buy_space_refused. intros H.
  apply orb_false_elim in H as [H H4].
  apply orb_false_elim in H as [H H3].
  apply orb_false_elim in H as [H1 H2].
  apply Z.eqb_neq in H1. apply negb_false_iff, bool_decide_eq_true in H2.
  apply Z.leb_gt in H4. repeat split; try done.
  intros E. by rewrite E in H3.
Qed.

Lemma Inv_buy_space g name : Inv g -> Inv (fst (buy_space name g)).
Proof.
  intros HI. destruct (player_of g name) as [pl|] eqn:Hp;
    [|by rewrite buy_space_unregistered].
  pose proof (board_getitem_fst (Player.get_location pl) g) as F.
  destruct (board_getitem (Player.get_location pl) g) as [g0 [[slot sp]|e]] eqn:Hs;
    simpl in F; subst g0; [|by erewrite buy_space_off_board].
  rewrite (buy_space_unfold _ _ _ _ _ Hp Hs).
  destruct (buy_space_refused pl sp) eqn:Href; [done|]. cbn [fst].
  apply not_refused in Href as (Hbal & Hfree & Hname & Hprice).
  destruct (board_getitem_shape _ _ _ _ _ (inv_board g HI) Hs)
    as (_ & Hloc & Hslot & Hlook & (_ & Hnm & Hrent & Hpp)).
  destruct (decide (slot = 0%nat)) as [|Hslot0]; [done|].
  assert (owner_at (_game_board g) slot = None) as Hnone.
  { unfold owner_at. by rewrite Hlook. }
  set (pl' := Player.buy_game_space (GameSpace._game_space_name sp)
                (Player.withdraw (GameSpace._purchase_price sp) pl)).
  assert (forall q, player_of (bought g name slot sp) q
                    = if String.eqb name q then Some pl' else player_of g q)
    as Hplayers.
  { intros q. unfold player_of, bought. cbn [_players].
    rewrite dict_update_update, dict_get_update.
    destruct (String.eqb name q) eqn:E; [|done].
    apply String.eqb_eq in E. subst q. unfold player_of in Hp. by rewrite Hp. }
  assert (forall i, owner_at (_game_board (bought g name slot sp)) i
                    = if decide (slot = i) then Some name
                      else owner_at (_game_board g) i) as Hboard.
  { intros i. unfold bought. cbn [_game_board]. rewrite owner_at_alter.
    destruct (decide (slot = i)) as [<-|]; [|done]. by rewrite Hlook. }
  split.
  - unfold bought. cbn [_game_board].
    apply board_ok_alter; [apply (inv_board g HI)|apply owner_only_set|done].
  - intros q ql. rewrite Hplayers. destruct (String.eqb name q).
    + intros [= <-]. simpl. lia.
    + by apply inv_balance.
  - intros q ql. rewrite Hplayers. destruct (String.eqb name q).
    + intros [= <-]. simpl. lia.
    + by apply inv_zero.
  - intros q ql. rewrite Hplayers. destruct (String.eqb name q).
    + intros [= <-]. simpl. apply NoDup_app. split; [by eapply inv_nodup|].
      split; [|apply NoDup_singleton].
      intros n Hn ->%list_elem_of_singleton.
      destruct (inv_owned g HI name pl _ Hp Hn) as (i & E & Ho).
      rewrite Hnm in E. injection E as E. apply Nat2Z.inj in E. subst i.
      congruence.
    + by apply inv_nodup.
  - intros q ql n. rewrite Hplayers. destruct (String.eqb name q) eqn:E.
    + apply String.eqb_eq in E. subst q. intros [= <-]. simpl.
      intros [Hn| ->%list_elem_of_singleton]%elem_of_app.
      * destruct (inv_owned g HI name pl _ Hp Hn) as (i & -> & Ho).
        exists i. split; [done|]. rewrite Hboard. by destruct (decide _).
      * exists slot. split; [done|]. rewrite Hboard. by rewrite decide_True.
    + apply String.eqb_neq in E. intros Hq Hn.
      destruct (inv_owned g HI q ql _ Hq Hn) as (i & -> & Ho).
      exists i. split; [done|]. rewrite Hboard.
      destruct (decide (slot = i)) as [<-|]; [congruence|done].
  - intros i o. rewrite Hboard. destruct (decide (slot = i)) as [<-|Hne].
    + intros [= <-]. exists pl'. rewrite Hplayers, String.eqb_refl.
      split; [done|]. simpl. apply elem_of_app. right. rewrite Hnm.
      by apply list_elem_of_singleton.
    + intros Ho. destruct (inv_owner g HI i o Ho) as (ol & Hol & Hin).
      rewrite Hplayers. destruct (String.eqb name o) eqn:E.
      * apply String.eqb_eq in E. subst o. exists pl'. split; [done|].
        simpl. apply elem_of_app. left. congruence.
      * by exists ol.
Qed.

(** [lose_game] on a well-formed board, for a player whose owned spaces
    are board slots: the loop completes. *)
Lemma lose_game_closed g name pl :
  board_ok (_game_board g) ->
  player_of g name = Some pl ->
  on_board (Player._owned_game_spaces pl) ->
  exists b,
    lose_game name g
    = ({| _game_board := b;
          _players :=
            dict_update name Player.clear_owned_game_spaces (_players g) |},
       Ok tt)
    /\ board_ok b
    /\ forall i : nat,
         owner_at b i
         = if decide (Num (Z.of_nat i) ∈ Player._owned_game_spaces pl)
           then None else owner_at (_game_board g) i.
Proof.
  intros Hb Hp Hl.
  destruct (remove_owners_ok _ g Hb Hl) as (b & Hrun & Hb' & Hown).
  exists b. split; [|done].
  by rewrite (lose_game_unfold _ _ _ Hp), Hrun.
Qed.

(** The state after an elimination: the player's spaces are released and
    the player object is left by [f] with an empty owned-space list. *)
Lemma Inv_eliminate g name pl b f :
  Inv g -> player_of g name = Some pl ->
  board_ok b ->
  (forall i : nat,
     owner_at b i
     = if decide (Num (Z.of_nat i) ∈ Player._owned_game_spaces pl)
       then None else owner_at (_game_board g) i) ->
  Player._owned_game_spaces (f pl) = [] ->
  0 <= Player._account_balance (f pl) ->
  (Player._account_balance (f pl) = 0 -> 0 <= Player.get_location (f pl) < 25) ->
  Inv {| _game_board := b; _players := dict_update name f (_players g) |}.
Proof.
  intros HI Hp Hb Hown Hempty Hbal Hzero.
  set (g' := {| _game_board := b; _players := dict_update name f (_players g) |}).
  assert (forall q, player_of g' q
                    = if String.eqb name q then Some (f pl) else player_of g q)
    as Hplayers.
  { intros q. unfold player_of, g'. cbn [_players]. rewrite dict_get_update.
    destruct (String.eqb name q) eqn:E; [|done].
    apply String.eqb_eq in E. subst q. unfold player_of in Hp. by rewrite Hp. }
  split; cbn [g' _game_board].
  - done.
  - intros q ql. rewrite Hplayers. destruct (String.eqb name q).
    + by intros [= <-].
    + by apply inv_balance.
  - intros q ql. rewrite Hplayers. destruct (String.eqb name q).
    + intros [= <-]. auto.
    + by apply inv_zero.
  - intros q ql. rewrite Hplayers. destruct (String.eqb name q).
    + intros [= <-]. rewrite Hempty. apply NoDup_nil_2.
    + by apply inv_nodup.
  - intros q ql n. rewrite Hplayers. destruct (String.eqb name q) eqn:E.
    + intros [= <-]. rewrite Hempty. by intros ?%elem_of_nil.
    + apply String.eqb_neq in E. intros Hq Hn.
      destruct (inv_owned g HI q ql _ Hq Hn) as (i & -> & Ho).
      exists i. split; [done|]. rewrite Hown.
      destruct (decide _) as [Hin|]; [|done].
      destruct (inv_owned g HI name pl _ Hp Hin) as (i' & E' & Ho').
      injection E' as E'. apply Nat2Z.inj in E'. subst i'. congruence.
  - intros i o. rewrite Hown. destruct (decide _) as [|Hnin]; [done|].
    intros Ho. destruct (inv_owner g HI i o Ho) as (ol & Hol & Hin).
    exists ol. split; [|done]. rewrite Hplayers.
    destruct (String.eqb name o) eqn:E; [|done].
    apply String.eqb_eq in E. subst o. congruence.
Qed.

Lemma movement_on_board g name pl k slot gosp :
  length (_game_board g) = 25%nat ->
  board_getitem 0 g = (g, Ok (slot, gosp)) ->
  player_of g name = Some pl ->
  movement name k g
  = (with_players g
       (dict_update name (fun p => moved p k (GameSpace._rent gosp)) (_players g)),
     Ok tt).
Proof.
  intros Hlen Hgo Hp. rewrite (movement_unfold _ _ _ _ Hp). cbv zeta.
  rewrite Hlen. change (Z.of_nat 25 - 1) with 24. change (Z.of_nat 25) with 25.
  rewrite (dict_update_ext name (fun p => moved p k (GameSpace._rent gosp))
             (fun _ => moved pl k (GameSpace._rent gosp)))
    by (unfold player_of in Hp; intros v; rewrite Hp; by intros [= <-]).
  unfold moved.
  destruct (Player.get_location pl + k <? 24) eqn:E.
  - f_equal. unfold with_players. f_equal. apply dict_update_ext.
    unfold player_of in Hp. intros v. rewrite Hp. by intros [= <-].
  - change (25 =? 0) with false. cbv iota.
    set (ps1 := dict_update name _ (_players g)).
    assert (player_of (with_players g ps1) name
            = Some (Player.set_location (Num ((Player.get_location pl + k) mod 25)) pl))
      as Hp1.
    { unfold player_of, with_players, ps1. cbn [_players].
      rewrite dict_get_update_eq. unfold player_of in Hp. by rewrite Hp. }
    assert (board_getitem 0 (with_players g ps1)
            = (with_players g ps1, Ok (slot, gosp))) as Hgo1.
    { by rewrite board_getitem_with_players, Hgo. }
    rewrite (pass_go_unfold _ _ _ _ _ Hgo1 Hp1).
    f_equal. unfold with_players, ps1. cbn [_game_board _players]. f_equal.
    rewrite dict_update_update. apply dict_update_ext.
    unfold player_of in Hp. intros v. rewrite Hp. by intros [= <-].
Qed.

Lemma board_getitem_go g :
  board_ok (_game_board g) ->
  exists gosp, board_getitem 0 g = (g, Ok (0%nat, gosp)) /\ 0 < GameSpace._rent gosp.
Proof.
  intros Hb. destruct (board_getitem_in_range g 0 Hb) as (gosp & Hget & Hlook);
    [lia|].
  exists gosp. split; [exact Hget|].
  by destruct (proj1 (proj2 Hb) _ _ _ Hlook) as (_ & _ & ? & _).
Qed.

Lemma Inv_movement g name pl k :
  Inv g -> player_of g name = Some pl -> Player._account_balance pl <> 0 ->
  Inv (fst (movement name k g)).
Proof.
  intros HI Hp Hbal.
  destruct (board_getitem_go g (inv_board g HI)) as (gosp & Hgo & Hpos).
  rewrite (movement_on_board _ _ _ _ _ _ (proj1 (inv_board g HI)) Hgo Hp).
  cbn [fst]. apply Inv_update_player; [done|].
  intros pl0 Hp0. assert (pl0 = pl) as -> by congruence.
  pose proof (inv_balance g HI _ _ Hp) as Hnn.
  unfold moved. destruct (_ <? 24); simpl; (split; [done|split; lia]).
Qed.

Lemma Inv_pay_rent g name : Inv g -> Inv (fst (pay_rent name g)).
Proof.
  intros HI. destruct (player_of g name) as [pl|] eqn:Hp;
    [|by rewrite pay_rent_unregistered].
  pose proof (board_getitem_fst (Player.get_location pl) g) as F.
  destruct (board_getitem (Player.get_location pl) g) as [g0 [[slot sp]|e]] eqn:Hs;
    simpl in F; subst g0; [|by erewrite pay_rent_off_board].
  rewrite (pay_rent_unfold _ _ _ _ _ Hp Hs).
  destruct (board_getitem_shape _ _ _ _ _ (inv_board g HI) Hs)
    as (_ & Hloc & Hslot & Hlook & (_ & _ & Hrent & _)).
  destruct (GameSpace._game_space_owner sp) as [owner|] eqn:Hown; [|done].
  destruct (String.eqb owner "GO"); [done|].
  destruct (player_of g owner) as [ol|] eqn:Ho; [|done].
  pose proof (inv_balance g HI _ _ Hp) as Hnn.
  destruct (GameSpace._rent sp <? Player._account_balance pl) eqn:Hlt.
  - (* the rent is paid in full *)
    apply Z.ltb_lt in Hlt. cbn [fst]. unfold rent_paid.
    set (g1 := with_players g (dict_update name
                 (Player.withdraw (GameSpace._rent sp)) (_players g))).
    assert (Inv g1) as HI1.
    { apply Inv_update_player; [done|]. intros pl0 Hp0.
      assert (pl0 = pl) as -> by congruence. simpl. split; [done|split; lia]. }
    apply (Inv_update_player g1 owner (Player.deposit (GameSpace._rent sp)) HI1).
    intros ol1 Ho1. pose proof (inv_balance g1 HI1 _ _ Ho1). simpl.
    split; [done|split; lia].
  - (* the whole balance is paid and the player loses the game *)
    apply Z.ltb_ge in Hlt.
    set (bal := Player._account_balance pl) in *.
    destruct (remove_owners_ok (Player._owned_game_spaces pl) g
                (inv_board g HI) (Inv_on_board g name pl HI Hp))
      as (b & Hrun & Hb & Hcleared).
    destruct (decide (owner = name)) as [->|Hne].
    + (* the player stands on a space they own themselves *)
      assert (player_of (rent_paid g name name bal) name
              = Some (Player.deposit bal (Player.withdraw bal pl))) as Hp1.
      { unfold player_of, rent_paid, with_players. cbn [_players].
        rewrite !dict_get_update_eq. unfold player_of in Hp. by rewrite Hp. }
      rewrite (lose_game_unfold _ _ _ Hp1). cbn [Player.deposit Player.withdraw
        Player._owned_game_spaces].
      unfold rent_paid at 1. rewrite remove_owners_with_players, Hrun.
      cbn [fst snd with_players with_board _game_board _players].
      rewrite !dict_update_update.
      apply (Inv_eliminate g name pl b); try done; simpl; lia.
    + (* another player owns the space *)
      assert (player_of (rent_paid g name owner bal) name
              = Some (Player.withdraw bal pl)) as Hp1.
      { unfold player_of, rent_paid, with_players. cbn [_players].
        rewrite dict_get_update_ne, dict_get_update_eq by done.
        unfold player_of in Hp. by rewrite Hp. }
      rewrite (lose_game_unfold _ _ _ Hp1). cbn [Player.withdraw
        Player._owned_game_spaces].
      unfold rent_paid at 1. rewrite remove_owners_with_players, Hrun.
      cbn [fst snd with_players with_board _game_board _players].
      rewrite (dict_update_comm name owner) by done.
      rewrite dict_update_update.
      set (g1 := {| _game_board := b;
                    _players := dict_update name
                      (fun v => Player.clear_owned_game_spaces (Player.withdraw bal v))
                      (_players g) |}).
      assert (Inv g1) as HI1.
      { apply (Inv_eliminate g name pl b); try done; simpl; lia. }
      apply (Inv_update_player g1 owner (Player.deposit bal) HI1).
      intros ol1 Ho1. pose proof (inv_balance g1 HI1 _ _ Ho1) as Hnn1. simpl.
      split; [done|]. split; [lia|]. intros Hz.
      apply (inv_zero g1 HI1 _ _ Ho1). lia.
Qed.

Lemma Inv_move_player g name k : Inv g -> Inv (fst (move_player name k g)).
Proof.
  intros HI. destruct (player_of g name) as [pl|] eqn:Hp;
    [|by rewrite move_player_unregistered].
  rewrite (move_player_unfold _ _ _ _ Hp).
  destruct (Player._account_balance pl =? 0) eqn:Hz; [done|].
  apply Z.eqb_neq in Hz.
  pose proof (Inv_movement g name pl k HI Hp Hz) as HI1.
  destruct (movement name k g) as [g1 [[]|e]]; [|done].
  by apply Inv_pay_rent.
Qed.

Lemma Inv_exec g c : Inv g -> admissible c -> Inv (exec c g).
Proof.
  intros HI Hc. destruct c as [n b|n|n|n|n k| |n]; cbn [exec].
  - by apply Inv_create_player.
  - unfold get_player_account_balance, bind, players_getitem.
    by destruct (dict_get n (_players g)).
  - unfold get_player_current_position, bind, players_getitem.
    by destruct (dict_get n (_players g)).
  - by apply Inv_buy_space.
  - by apply Inv_move_player.
  - unfold check_game_over. by destruct (scan_players _).
  - unfold get_list_of_player_owned_spaces, bind, players_getitem.
    by destruct (dict_get n (_players g)).
Qed.

Lemma reachable_Inv g : reachable g -> Inv g.
Proof.
  induction 1 as [go_money rent_list Hgo Hlen Hpos|g c _ IH Hc].
  - by apply Inv_fresh.
  - by apply Inv_exec.
Qed.

Lemma reachable_exec_all cs : forall g,
  reachable g -> Forall admissible cs -> reachable (exec_all cs g).
Proof.
  induction cs as [|c cs IH]; intros g Hg Hcs; [done|].
  apply Forall_cons in Hcs as [Hc Hcs]. cbn [exec_all fold_left].
  apply IH; [|done]. by apply reachable_call.
Qed.

(** ** Example games *)

Lemma demo_bought_reachable : reachable demo_bought.
Proof. solve_reachable. Qed.

(** ** The claims *)

(** C1 (code defect).  [check_game_over] is documented to return the one
    player left when there is only one active player.  The code compares the
    number of players WITHOUT money with 1.  With three players of whom one
    is out, it names the last player that still has money as winner although
    two are still playing; with two of three out, it returns the empty
    string although exactly N-1 players have balance 0. *)
Theorem check_game_over_counts_eliminated_players :
  snd (check_game_over demo_one_out) = Ok (Some "C")
  /\ snd (check_game_over demo_two_out) = Ok (Some "")
  /\ (Player._account_balance <$> player_of demo_one_out "A" = Some 100
      /\ Player._account_balance <$> player_of demo_one_out "B" = Some 0
      /\ Player._account_balance <$> player_of demo_one_out "C" = Some 100)
  /\ (Player._account_balance <$> player_of demo_two_out "A" = Some 0
      /\ Player._account_balance <$> player_of demo_two_out "B" = Some 0
      /\ Player._account_balance <$> player_of demo_two_out "C" = Some 100)
  /\ dict_keys (_players demo_one_out) = ["A"; "B"; "C"]
  /\ dict_keys (_players demo_two_out) = ["A"; "B"; "C"].
Proof. vm_compute. repeat split. Qed.

(** C2 (code defect).  A player who lands on a space they own themselves
    should owe no rent.  [pay_rent] does not compare the owner with the
    lander: when the rent is not below the balance it withdraws the balance,
    deposits it back into the same object and calls [lose_game].  In the
    example "A" (balance 10, owner of space 1) moves 25 spaces, passes GO
    (+5) and lands on space 1 again: the balance stays 15, but the
    owned-space list is emptied and space 1 loses its owner. *)
Theorem landing_on_own_space_releases_holdings :
  reachable demo_bought
  /\ player_of demo_bought "A"
     = Some {| Player._player_name := "A"; Player._account_balance := 10;
               Player._current_location := Num 1;
               Player._owned_game_spaces := [Num 1] |}
  /\ owner_at (_game_board demo_bought) 1 = Some "A"
  /\ move_player "A" 25 demo_bought
     = (exec (Call_move_player "A" 25) demo_bought, Ok tt)
  /\ player_of (exec (Call_move_player "A" 25) demo_bought) "A"
     = Some {| Player._player_name := "A"; Player._account_balance := 15;
               Player._current_location := Num 1;
               Player._owned_game_spaces := [] |}
  /\ owner_at (_game_board (exec (Call_move_player "A" 25) demo_bought)) 1 = None.
Proof. split; [exact demo_bought_reachable|]. vm_compute. repeat split. Qed.

(** C9.  [create_player] with a name that is already registered returns
    normally, prints the name-in-use notice and leaves the whole game state
    as it was. *)
Theorem create_player_duplicate_name g player_name starting_account_balance pl :
  player_of g player_name = Some pl ->
  create_player player_name starting_account_balance g
  = (g, Ok [name_in_use_message]).
Proof. unfold player_of, create_player. by intros ->. Qed.

Lemma create_player_duplicate_name_witness :
  create_player "A" 999 demo_bought = (demo_bought, Ok [name_in_use_message]).
Proof.
  apply (create_player_duplicate_name demo_bought "A" 999
           {| Player._player_name := "A"; Player._account_balance := 10;
              Player._current_location := Num 1;
              Player._owned_game_spaces := [Num 1] |}).
  reflexivity.
Defined.

(** ** What the rent flow leaves alone *)

Lemma dict_get_update_proj {V A : Type} (proj : V -> A) k f
    (d : list (string * V)) q :
  (forall v, proj (f v) = proj v) ->
  proj <$> dict_get q (dict_update k f d) = proj <$> dict_get q d.
Proof.
  intros Hf. rewrite dict_get_update. destruct (String.eqb k q); [|done].
  destruct (dict_get q d); simpl; [|done]. by rewrite Hf.
Qed.

Lemma lose_game_proj {A : Type} (proj : Player.t -> A) name g q :
  (forall v, proj (Player.clear_owned_game_spaces v) = proj v) ->
  proj <$> player_of (fst (lose_game name g)) q = proj <$> player_of g q.
Proof.
  intros Hclear. unfold lose_game, bind, players_getitem.
  destruct (dict_get name (_players g)) as [pl|]; [|done].
  pose proof (remove_owners_players (Player.get_owned_game_spaces pl) g) as Hps.
  destruct (remove_owners _ g) as [g1 [[]|e]]; cbn [fst] in *.
  - unfold player_call, player_of. cbn [fst _players].
    rewrite dict_get_update_proj by done. by rewrite Hps.
  - unfold player_of. by rewrite Hps.
Qed.

Lemma pay_rent_proj {A : Type} (proj : Player.t -> A) name g q :
  (forall v, proj (Player.clear_owned_game_spaces v) = proj v) ->
  (forall a v, proj (Player.deposit a v) = proj v) ->
  (forall a v, proj (Player.withdraw a v) = proj v) ->
  proj <$> player_of (fst (pay_rent name g)) q = proj <$> player_of g q.
Proof.
  intros Hclear Hdep Hwd.
  assert (forall owner a, proj <$> player_of (rent_paid g name owner a) q
                          = proj <$> player_of g q) as Hpaid.
  { intros owner a. unfold rent_paid, player_of, with_players. cbn [_players].
    by rewrite !dict_get_update_proj. }
  destruct (player_of g name) as [pl|] eqn:Hp;
    [|by rewrite pay_rent_unregistered].
  pose proof (board_getitem_fst (Player.get_location pl) g) as F.
  destruct (board_getitem (Player.get_location pl) g) as [g0 [[slot sp]|e]] eqn:Hs;
    simpl in F; subst g0; [|by erewrite pay_rent_off_board].
  rewrite (pay_rent_unfold _ _ _ _ _ Hp Hs).
  destruct (GameSpace._game_space_owner sp) as [owner|]; [|done].
  destruct (String.eqb owner "GO"); [done|].
  destruct (player_of g owner); [|done].
  destruct (_ <? _); [apply Hpaid|].
  by rewrite lose_game_proj, Hpaid.
Qed.

(** C4.  On the 25-slot board, [movement] puts the player on
    [pos + spaces_to_move] when that is below 24, without touching the
    balance; otherwise (24 included) on that number modulo 25, and the GO
    payout is added to the balance once, whatever the new position.  Nobody
    else and no space changes, and the rent step of [move_player] keeps the
    position. *)
Theorem movement_position_and_go_payout g player_name pl spaces_to_move slot gosp :
  length (_game_board g) = 25%nat ->
  board_getitem 0 g = (g, Ok (slot, gosp)) ->
  player_of g player_name = Some pl ->
  let raw := Player.get_location pl + spaces_to_move in
  let g' := fst (movement player_name spaces_to_move g) in
  snd (movement player_name spaces_to_move g) = Ok tt
  /\ (raw < 24 ->
      player_of g' player_name
      = Some {| Player._player_name := Player._player_name pl;
                Player._account_balance := Player._account_balance pl;
                Player._current_location := Num raw;
                Player._owned_game_spaces := Player._owned_game_spaces pl |})
  /\ (24 <= raw ->
      player_of g' player_name
      = Some {| Player._player_name := Player._player_name pl;
                Player._account_balance :=
                  Player._account_balance pl + GameSpace._rent gosp;
                Player._current_location := Num (raw mod 25);
                Player._owned_game_spaces := Player._owned_game_spaces pl |})
  /\ (forall q, q <> player_name -> player_of g' q = player_of g q)
  /\ _game_board g' = _game_board g
  /\ (Player._account_balance pl <> 0 ->
      Player.get_location
        <$> player_of (fst (move_player player_name spaces_to_move g)) player_name
      = Some (if raw <? 24 then raw else raw mod 25)).
Proof.
  intros Hlen Hgo Hp raw g'.
  assert (player_of g' player_name
          = Some (moved pl spaces_to_move (GameSpace._rent gosp))) as Hp'.
  { unfold g'. rewrite (movement_on_board _ _ _ _ _ _ Hlen Hgo Hp).
    unfold player_of, with_players. cbn [fst _players].
    rewrite dict_get_update_eq. unfold player_of in Hp. by rewrite Hp. }
  split; [by rewrite (movement_on_board _ _ _ _ _ _ Hlen Hgo Hp)|].
  split; [|split; [|split; [|split]]].
  - intros Hlt. rewrite Hp'. unfold moved. fold raw.
    by rewrite (proj2 (Z.ltb_lt raw 24) Hlt).
  - intros Hge. rewrite Hp'. unfold moved. fold raw.
    by rewrite (proj2 (Z.ltb_ge raw 24) Hge).
  - intros q Hq. unfold g'. rewrite (movement_on_board _ _ _ _ _ _ Hlen Hgo Hp).
    unfold player_of, with_players. cbn [fst _players].
    by rewrite dict_get_update_ne.
  - unfold g'. by rewrite (movement_on_board _ _ _ _ _ _ Hlen Hgo Hp).
  - intros Hbal. rewrite (move_player_unfold _ _ _ _ Hp).
    rewrite (proj2 (Z.eqb_neq _ 0) Hbal).
    fold g' in Hp'. unfold g' in *.
    destruct (movement player_name spaces_to_move g) as [g1 [[]|e]] eqn:Hm;
      cbn [fst] in *.
    + rewrite pay_rent_proj by done. rewrite Hp'. unfold moved. fold raw.
      by destruct (raw <? 24).
    + rewrite Hp'. unfold moved. fold raw. by destruct (raw <? 24).
Qed.

Lemma movement_position_and_go_payout_witness :
  snd (movement "A" 23 demo_bought) = Ok tt
  /\ Player._account_balance
       <$> player_of (fst (movement "A" 23 demo_bought)) "A" = Some 15
  /\ Player.get_location
       <$> player_of (fst (movement "A" 23 demo_bought)) "A" = Some 24.
Proof.
  pose proof (movement_position_and_go_payout demo_bought "A"
    {| Player._player_name := "A"; Player._account_balance := 10;
       Player._current_location := Num 1;
       Player._owned_game_spaces := [Num 1] |} 23 0%nat
    (GameSpace.init GO 5) eq_refl eq_refl eq_refl) as (Hok & _ & Hwrap & _).
  split; [exact Hok|].
  assert (24 <= 1 + 23) as Hge by lia.
  rewrite (Hwrap Hge). split; reflexivity.
Defined.

(** *** The board stays well formed whatever is called *)

Lemma remove_owners_board_ok l : forall g,
  board_ok (_game_board g) -> board_ok (_game_board (fst (remove_owners l g))).
Proof.
  induction l as [|n l IH]; intros g Hb; [done|].
  cbn [remove_owners]. unfold bind at 1.
  pose proof (board_getitem_name_fst n g) as F.
  destruct (board_getitem_name n g) as [g0 [[slot sp]|e]]; simpl in F; subst g0;
    [|done].
  unfold bind, space_call. cbn [fst].
  apply IH. cbn [_game_board].
  apply board_ok_alter; [done|apply owner_only_remove|done].
Qed.

Lemma lose_game_board_ok name g :
  board_ok (_game_board g) -> board_ok (_game_board (fst (lose_game name g))).
Proof.
  intros Hb. unfold lose_game, bind, players_getitem.
  destruct (dict_get name (_players g)) as [pl|]; [|done].
  pose proof (remove_owners_board_ok (Player.get_owned_game_spaces pl) g Hb)
    as H1.
  by destruct (remove_owners _ g) as [g1 [[]|e]].
Qed.

Lemma pay_rent_board_ok name g :
  board_ok (_game_board g) -> board_ok (_game_board (fst (pay_rent name g))).
Proof.
  intros Hb. destruct (player_of g name) as [pl|] eqn:Hp;
    [|by rewrite pay_rent_unregistered].
  pose proof (board_getitem_fst (Player.get_location pl) g) as F.
  destruct (board_getitem (Player.get_location pl) g) as [g0 [[slot sp]|e]] eqn:Hs;
    simpl in F; subst g0; [|by erewrite pay_rent_off_board].
  rewrite (pay_rent_unfold _ _ _ _ _ Hp Hs).
  destruct (GameSpace._game_space_owner sp) as [owner|]; [|done].
  destruct (String.eqb owner "GO"); [done|].
  destruct (player_of g owner); [|done].
  destruct (_ <? _); [done|]. by apply lose_game_board_ok.
Qed.

Lemma pass_go_board name g : _game_board (fst (pass_go name g)) = _game_board g.
Proof.
  unfold pass_go, bind.
  pose proof (board_getitem_fst 0 g) as F.
  destruct (board_getitem 0 g) as [g0 [[slot sp]|e]]; simpl in F; subst g0;
    [|done].
  unfold players_getitem. by destruct (dict_get name (_players g)).
Qed.

Lemma movement_board name k g :
  _game_board (fst (movement name k g)) = _game_board g.
Proof.
  destruct (player_of g name) as [pl|] eqn:Hp.
  - rewrite (movement_unfold _ _ _ _ Hp). cbv zeta.
    destruct (_ <? _); [done|]. destruct (_ =? 0); [done|].
    by rewrite pass_go_board.
  - unfold movement, bind. by rewrite (players_getitem_None _ _ Hp).
Qed.

Lemma buy_space_board_ok name g :
  board_ok (_game_board g) -> board_ok (_game_board (fst (buy_space name g))).
Proof.
  intros Hb. destruct (player_of g name) as [pl|] eqn:Hp;
    [|by rewrite buy_space_unregistered].
  pose proof (board_getitem_fst (Player.get_location pl) g) as F.
  destruct (board_getitem (Player.get_location pl) g) as [g0 [[slot sp]|e]] eqn:Hs;
    simpl in F; subst g0; [|by erewrite buy_space_off_board].
  rewrite (buy_space_unfold _ _ _ _ _ Hp Hs).
  destruct (buy_space_refused pl sp) eqn:Href; [done|].
  apply not_refused in Href as (_ & _ & Hname & _).
  destruct (board_getitem_shape _ _ _ _ _ Hb Hs) as (_ & _ & _ & _ & (_ & Hn & _)).
  unfold bought. cbn [fst _game_board].
  apply board_ok_alter; [done|apply owner_only_set|].
  intros ->. by rewrite decide_True in Hn.
Qed.

Lemma move_player_board_ok name k g :
  board_ok (_game_board g) ->
  board_ok (_game_board (fst (move_player name k g))).
Proof.
  intros Hb. destruct (player_of g name) as [pl|] eqn:Hp;
    [|by rewrite move_player_unregistered].
  rewrite (move_player_unfold _ _ _ _ Hp).
  destruct (_ =? 0); [done|].
  pose proof (movement_board name k g) as Hm.
  destruct (movement name k g) as [g1 [[]|e]]; cbn [fst] in Hm |- *.
  - apply pay_rent_board_ok. by rewrite Hm.
  - by rewrite Hm.
Qed.

Lemma played_board_ok g : played g -> board_ok (_game_board g).
Proof.
  induction 1 as [go_money rent_list Hgo Hlen Hpos|g c _ IH].
  - by apply board_ok_fresh.
  - destruct c as [n b|n|n|n|n k| |n]; cbn [exec].
    + unfold create_player. by destruct (dict_get n (_players g)).
    + unfold get_player_account_balance, bind, players_getitem.
      by destruct (dict_get n (_players g)).
    + unfold get_player_current_position, bind, players_getitem.
      by destruct (dict_get n (_players g)).
    + by apply buy_space_board_ok.
    + by apply move_player_board_ok.
    + unfold check_game_over. by destruct (scan_players _).
    + unfold get_list_of_player_owned_spaces, bind, players_getitem.
      by destruct (dict_get n (_players g)).
Qed.

Lemma reachable_played g : reachable g -> played g.
Proof.
  induction 1 as [go_money rent_list Hgo Hlen Hpos|g c _ IH _].
  - by apply played_fresh.
  - by apply played_call.
Qed.

Lemma refused_iff pl sp :
  0 <= GameSpace._purchase_price sp ->
  buy_space_refused pl sp = false <-> may_buy pl sp.
Proof.
  intros Hnn. split.
  - intros (? & ? & ? & ?)%not_refused. repeat split; try done. lia.
  - intros (Hbal & Hname & Hfree & Hprice). unfold buy_space_refused.
    rewrite (proj2 (Z.eqb_neq _ 0)) by lia.
    rewrite bool_decide_eq_true_2 by done.
    rewrite (proj2 (Z.leb_gt _ _)) by lia.
    by destruct (GameSpace._game_space_name sp).
Qed.

(** C3, as the code has it.  In a played game (any calls, any starting
    balances), for a registered player WHOSE POSITION IS A SPACE OF THE
    BOARD (the lookup of the current space succeeds), [buy_space] returns
    True exactly when the balance is positive, the space is not GO, has no
    owner, and costs strictly less than the balance.  Then the price is
    withdrawn, the space's name is appended to the player's owned list and
    the player becomes the space's owner, and nothing else changes.
    Otherwise it returns False and the game is the same as before. *)
Theorem buy_space_iff_preconditions g player_name pl slot sp :
  played g ->
  player_of g player_name = Some pl ->
  board_getitem (Player.get_location pl) g = (g, Ok (slot, sp)) ->
  let g' := fst (buy_space player_name g) in
  (snd (buy_space player_name g) = Ok true <-> may_buy pl sp)
  /\ (may_buy pl sp ->
      player_of g' player_name
      = Some {| Player._player_name := Player._player_name pl;
                Player._account_balance :=
                  Player._account_balance pl - GameSpace._purchase_price sp;
                Player._current_location := Player._current_location pl;
                Player._owned_game_spaces :=
                  Player._owned_game_spaces pl ++ [GameSpace._game_space_name sp] |}
      /\ _game_board g' !! slot
         = Some (Player.get_location pl,
                 {| GameSpace._game_space_name := GameSpace._game_space_name sp;
                    GameSpace._rent := GameSpace._rent sp;
                    GameSpace._purchase_price := GameSpace._purchase_price sp;
                    GameSpace._game_space_owner := Some player_name |})
      /\ (forall i, i <> slot -> _game_board g' !! i = _game_board g !! i)
      /\ (forall q, q <> player_name -> player_of g' q = player_of g q))
  /\ (~ may_buy pl sp -> buy_space player_name g = (g, Ok false)).
Proof.
  intros Hplayed Hp Hs g'. unfold g'. clear g'.
  assert (0 <= GameSpace._purchase_price sp) as Hnn.
  { destruct (board_getitem_shape _ _ _ _ _ (played_board_ok g Hplayed) Hs)
      as (_ & _ & _ & _ & (_ & _ & Hrent & ->)). lia. }
  pose proof (refused_iff pl sp Hnn) as Hiff.
  rewrite (buy_space_unfold _ _ _ _ _ Hp Hs).
  apply board_getitem_Ok in Hs as (_ & _ & Hlook).
  destruct (buy_space_refused pl sp) eqn:Href.
  - assert (~ may_buy pl sp) as Hno.
    { intros H. apply Hiff in H. discriminate. }
    split; [split; [discriminate|done]|]. split; done.
  - pose proof (proj1 Hiff eq_refl) as Hyes.
    split; [by split|]. split; [|done]. intros _. cbn [fst].
    unfold bought, player_of. cbn [_game_board _players]. repeat split.
    + rewrite !dict_get_update_eq. unfold player_of in Hp. by rewrite Hp.
    + rewrite list_lookup_alter_eq. by rewrite Hlook.
    + intros i Hi. by rewrite list_lookup_alter_ne.
    + intros q Hq. by rewrite !dict_get_update_ne.
Qed.

Lemma buy_space_iff_preconditions_witness :
  snd (buy_space "A" demo_moved) = Ok true
  /\ Player._account_balance <$> player_of (fst (buy_space "A" demo_moved)) "A"
     = Some 10.
Proof.
  assert (played demo_moved) as Hplayed by solve_played.
  pose proof (buy_space_iff_preconditions demo_moved "A"
    {| Player._player_name := "A"; Player._account_balance := 260;
       Player._current_location := Num 1; Player._owned_game_spaces := [] |}
    1%nat (GameSpace.init (Num 1) 50) Hplayed eq_refl eq_refl)
    as (Hiff & Hyes & _).
  assert (may_buy
    {| Player._player_name := "A"; Player._account_balance := 260;
       Player._current_location := Num 1; Player._owned_game_spaces := [] |}
    (GameSpace.init (Num 1) 50)) as Hmay.
  { unfold may_buy. simpl. repeat split; try lia. discriminate. }
  split; [by apply Hiff|].
  destruct (Hyes Hmay) as (-> & _). reflexivity.
Defined.

(** C3 as stated fails for a registered player who is not on the board.
    "A" (balance 10, on space 1) is moved by -3: [move_player] puts "A" on
    -2 and raises in the rent step.  In the state it leaves, which public
    calls alone produced, [buy_space] for the registered player "A" returns
    neither True nor False: the lookup of the current space raises KeyError
    before the preconditions are tested. *)
Lemma buy_space_raises_off_the_board :
  reachable (exec (Call_move_player "A" (-3)) demo_bought)
  /\ player_of (exec (Call_move_player "A" (-3)) demo_bought) "A"
     = Some {| Player._player_name := "A"; Player._account_balance := 10;
               Player._current_location := Num (-2);
               Player._owned_game_spaces := [Num 1] |}
  /\ buy_space "A" (exec (Call_move_player "A" (-3)) demo_bought)
     = (exec (Call_move_player "A" (-3)) demo_bought, Raise KeyError)
  /\ snd (buy_space "A" (exec (Call_move_player "A" (-3)) demo_bought))
     <> Ok true
  /\ snd (buy_space "A" (exec (Call_move_player "A" (-3)) demo_bought))
     <> Ok false.
Proof.
  split; [apply reachable_call; [solve_reachable|exact I]|].
  vm_compute. repeat split; discriminate.
Qed.

(** C10.  In every reachable state a space's owner field is a player's name
    exactly when the space's name is in that player's owned-space list; so
    no space is in the lists of two players, and no list has duplicates. *)
Theorem ownership_consistent g :
  reachable g ->
  (forall i key sp p pl,
     _game_board g !! i = Some (key, sp) ->
     player_of g p = Some pl ->
     GameSpace._game_space_owner sp = Some p
     <-> GameSpace._game_space_name sp ∈ Player._owned_game_spaces pl)
  /\ (forall p q pl ql n,
        p <> q -> player_of g p = Some pl -> player_of g q = Some ql ->
        n ∈ Player._owned_game_spaces pl -> n ∉ Player._owned_game_spaces ql)
  /\ (forall p pl, player_of g p = Some pl -> NoDup (Player._owned_game_spaces pl)).
Proof.
  intros HI%reachable_Inv. split; [|split].
  - intros i key sp p pl Hlook Hp.
    destruct (proj1 (proj2 (inv_board g HI)) _ _ _ Hlook) as (_ & Hname & _).
    assert (owner_at (_game_board g) i = GameSpace._game_space_owner sp) as Hat.
    { unfold owner_at. by rewrite Hlook. }
    split.
    + intros Ho. rewrite <- Hat in Ho.
      pose proof (owner_at_lt _ _ _ (inv_board g HI) Ho) as [Hi _].
      destruct (inv_owner g HI i p Ho) as (pl' & Hp' & Hin).
      assert (pl' = pl) as -> by congruence.
      rewrite Hname. destruct (decide (i = 0%nat)); [lia|done].
    + intros Hin. destruct (inv_owned g HI p pl _ Hp Hin) as (j & E & Ho).
      rewrite Hname in E. destruct (decide (i = 0%nat)); [done|].
      injection E as E. apply Nat2Z.inj in E. subst j. by rewrite <- Hat.
  - intros p q pl ql n Hne Hp Hq Hn Hn'.
    destruct (inv_owned g HI p pl n Hp Hn) as (i & -> & Ho).
    destruct (inv_owned g HI q ql _ Hq Hn') as (j & E & Ho').
    injection E as E. apply Nat2Z.inj in E. subst j. congruence.
  - intros p pl Hp. by eapply inv_nodup.
Qed.

Lemma ownership_consistent_witness :
  NoDup (Player._owned_game_spaces
           {| Player._player_name := "A"; Player._account_balance := 10;
              Player._current_location := Num 1;
              Player._owned_game_spaces := [Num 1] |}).
Proof.
  assert (reachable demo_bought) as Hreach by solve_reachable.
  apply (proj2 (proj2 (ownership_consistent demo_bought Hreach)) "A").
  reflexivity.
Defined.

(** ** [lose_game] on any board *)








(** ** The rent flow in a state that satisfies the invariant *)

Lemma pay_rent_closed g name pl slot sp owner :
  Inv g ->
  player_of g name = Some pl ->
  board_getitem (Player.get_location pl) g = (g, Ok (slot, sp)) ->
  GameSpace._game_space_owner sp = Some owner ->
  String.eqb owner "GO" = false ->
  exists ol,
    player_of g owner = Some ol
    /\ Num (Z.of_nat slot) ∈ Player._owned_game_spaces ol
    /\ if GameSpace._rent sp <? Player._account_balance pl
       then pay_rent name g
            = (rent_paid g name owner (GameSpace._rent sp), Ok tt)
       else exists b,
         pay_rent name g
         = ({| _game_board := b;
               _players :=
                 dict_update name Player.clear_owned_game_spaces
                   (_players (rent_paid g name owner (Player._account_balance pl))) |},
            Ok tt)
         /\ board_ok b
         /\ forall i : nat,
              owner_at b i
              = if decide (Num (Z.of_nat i) ∈ Player._owned_game_spaces pl)
                then None else owner_at (_game_board g) i.
Proof.
  intros HI Hp Hs Hown Hgo.
  pose proof (board_getitem_Ok _ _ _ _ _ Hs) as (_ & _ & Hlook).
  assert (owner_at (_game_board g) slot = Some owner) as Hat.
  { unfold owner_at. by rewrite Hlook. }
  destruct (inv_owner g HI _ _ Hat) as (ol & Hol & Hin).
  exists ol. split; [done|]. split; [done|].
  rewrite (pay_rent_unfold _ _ _ _ _ Hp Hs), Hown, Hgo, Hol.
  destruct (_ <? _); [done|].
  set (bal := Player._account_balance pl).
  destruct (remove_owners_ok (Player._owned_game_spaces pl) g
              (inv_board g HI) (Inv_on_board g name pl HI Hp))
    as (b & Hrun & Hb & Hcleared).
  exists b. split; [|done].
  pose proof (dict_get_update_proj Player._owned_game_spaces owner
                (Player.deposit bal)
                (dict_update name (Player.withdraw bal) (_players g)) name
                (fun _ => eq_refl)) as Hl.
  rewrite (dict_get_update_proj Player._owned_game_spaces name
             (Player.withdraw bal) (_players g) name (fun _ => eq_refl)) in Hl.
  unfold player_of in Hp. rewrite Hp in Hl.
  destruct (dict_get name (dict_update owner _ _)) as [pl1|] eqn:Hp1;
    [|discriminate].
  injection Hl as Hl.
  rewrite (lose_game_unfold (rent_paid g name owner bal) name pl1 Hp1), Hl.
  unfold rent_paid at 1. by rewrite remove_owners_with_players, Hrun.
Qed.

(** [buy_space] and [pay_rent] change the records of the caller and, for
    rent, of the owner of the space; a player who owns nothing is no owner. *)
Lemma buy_space_frame g name q :
  q <> name -> player_of (fst (buy_space name g)) q = player_of g q.
Proof.
  intros Hq. destruct (player_of g name) as [pl|] eqn:Hp;
    [|by rewrite buy_space_unregistered].
  pose proof (board_getitem_fst (Player.get_location pl) g) as F.
  destruct (board_getitem (Player.get_location pl) g) as [g0 [[slot sp]|e]] eqn:Hs;
    simpl in F; subst g0; [|by erewrite buy_space_off_board].
  rewrite (buy_space_unfold _ _ _ _ _ Hp Hs).
  destruct (buy_space_refused pl sp); [done|].
  unfold bought, player_of. cbn [fst _players]. by rewrite !dict_get_update_ne.
Qed.

Lemma pay_rent_frame g name q ql :
  Inv g -> q <> name ->
  player_of g q = Some ql -> Player._owned_game_spaces ql = [] ->
  player_of (fst (pay_rent name g)) q = Some ql.
Proof.
  intros HI Hq Hql Hnone.
  destruct (player_of g name) as [pl|] eqn:Hp;
    [|by rewrite pay_rent_unregistered].
  pose proof (board_getitem_fst (Player.get_location pl) g) as F.
  destruct (board_getitem (Player.get_location pl) g) as [g0 [[slot sp]|e]] eqn:Hs;
    simpl in F; subst g0; [|by erewrite pay_rent_off_board].
  destruct (GameSpace._game_space_owner sp) as [owner|] eqn:Hown;
    [|by rewrite (pay_rent_unfold _ _ _ _ _ Hp Hs), Hown].
  destruct (String.eqb owner "GO") eqn:Hgo;
    [by rewrite (pay_rent_unfold _ _ _ _ _ Hp Hs), Hown, Hgo|].
  destruct (pay_rent_closed _ _ _ _ _ _ HI Hp Hs Hown Hgo)
    as (ol & Hol & Hin & Hrun).
  assert (owner <> q) as Hoq.
  { intros ->. assert (ol = ql) as -> by congruence.
    rewrite Hnone in Hin. by apply elem_of_nil in Hin. }
  destruct (_ <? _).
  - rewrite Hrun. unfold rent_paid, player_of, with_players. cbn [fst _players].
    by rewrite !dict_get_update_ne.
  - destruct Hrun as (b & -> & _). unfold rent_paid, player_of, with_players.
    cbn [fst _players]. by rewrite !dict_get_update_ne.
Qed.

Lemma zero_balance_step g c name pl :
  Inv g -> admissible c ->
  player_of g name = Some pl -> Player._account_balance pl = 0 ->
  player_of (exec c g) name = Some pl.
Proof.
  intros HI Hc Hp Hz. destruct c as [n b|n|n|n|n k| |n]; cbn [exec].
  - unfold create_player. destruct (dict_get n (_players g)); [done|].
    unfold player_of in *. cbn [fst _players]. by rewrite dict_get_snoc, Hp.
  - unfold get_player_account_balance, bind, players_getitem.
    by destruct (dict_get n (_players g)).
  - unfold get_player_current_position, bind, players_getitem.
    by destruct (dict_get n (_players g)).
  - destruct (decide (name = n)) as [<-|Hne]; [|by rewrite buy_space_frame].
    pose proof (board_getitem_fst (Player.get_location pl) g) as F.
    destruct (board_getitem (Player.get_location pl) g) as [g0 [[slot sp]|e]] eqn:Hs;
      simpl in F; subst g0; [|by erewrite buy_space_off_board].
    rewrite (buy_space_unfold _ _ _ _ _ Hp Hs). unfold buy_space_refused.
    by rewrite Hz.
  - destruct (decide (name = n)) as [<-|Hne].
    { by rewrite (move_player_unfold _ _ _ _ Hp), Hz. }
    destruct (player_of g n) as [pn|] eqn:Hn;
      [|by rewrite move_player_unregistered].
    rewrite (move_player_unfold _ _ _ _ Hn).
    destruct (Player._account_balance pn =? 0) eqn:Hzn; [done|].
    apply Z.eqb_neq in Hzn.
    pose proof (Inv_movement g n pn k HI Hn Hzn) as HI1.
    destruct (board_getitem_go g (inv_board g HI)) as (gosp & Hgo & _).
    rewrite (movement_on_board _ _ _ _ _ _ (proj1 (inv_board g HI)) Hgo Hn) in *.
    cbn [fst] in HI1.
    apply pay_rent_frame; [done|done| |by apply (inv_zero g HI name)].
    unfold player_of, with_players. cbn [_players].
    by rewrite dict_get_update_ne.
  - unfold check_game_over. by destruct (scan_players _).
  - unfold get_list_of_player_owned_spaces, bind, players_getitem.
    by destruct (dict_get n (_players g)).
Qed.

(** C6, as the code has it.  In a game IN WHICH EVERY PLAYER IS CREATED WITH
    A STARTING BALANCE OF AT LEAST 0, a registered player whose balance is 0
    keeps the same balance, position and owned-space list through every
    sequence of public calls; [move_player] on them changes nothing and
    [buy_space] on them returns False and changes nothing. *)
Theorem zero_balance_is_permanent g cs player_name pl :
  reachable g ->
  player_of g player_name = Some pl ->
  Player._account_balance pl = 0 ->
  Forall admissible cs ->
  let g' := exec_all cs g in
  player_of g' player_name = Some pl
  /\ (forall k, move_player player_name k g' = (g', Ok tt))
  /\ buy_space player_name g' = (g', Ok false).
Proof.
  intros Hreach Hp Hz Hcs g'.
  assert (Inv g' /\ player_of g' player_name = Some pl) as [HI' Hp'].
  { unfold g'. clear g'. apply reachable_Inv in Hreach.
    revert g Hreach Hp. induction cs as [|c cs IH]; intros g HI Hp; [done|].
    apply Forall_cons in Hcs as [Hc Hcs]. cbn [exec_all fold_left].
    apply IH; [done|by apply Inv_exec|by apply zero_balance_step]. }
  split; [done|]. split.
  - intros k. by rewrite (move_player_unfold _ _ _ _ Hp'), Hz.
  - destruct (inv_zero g' HI' _ _ Hp' Hz) as [_ Hloc].
    destruct (board_getitem_in_range g' _ (inv_board g' HI') Hloc)
      as (sp & Hs & _).
    rewrite (buy_space_unfold _ _ _ _ _ Hp' Hs). unfold buy_space_refused.
    by rewrite Hz.
Qed.

Lemma zero_balance_is_permanent_witness :
  player_of
    (exec_all [Call_move_player "B" 5; Call_buy_space "B";
               Call_move_player "A" 25; Call_create_player "C" 7]
       demo_eliminated) "B"
  = Some {| Player._player_name := "B"; Player._account_balance := 0;
            Player._current_location := Num 1;
            Player._owned_game_spaces := [] |}.
Proof.
  assert (reachable demo_eliminated) as Hreach by solve_reachable.
  apply (zero_balance_is_permanent demo_eliminated
           [Call_move_player "B" 5; Call_buy_space "B";
            Call_move_player "A" 25; Call_create_player "C" 7] "B"
           {| Player._player_name := "B"; Player._account_balance := 0;
              Player._current_location := Num 1;
              Player._owned_game_spaces := [] |} Hreach).
  - reflexivity.
  - reflexivity.
  - repeat constructor. simpl. lia.
Defined.

(** C6 as stated fails when a player is created with a negative balance.
    In [demo_debtor], which public calls alone produced, "A" has balance
    exactly 0 and still owns space 1 (the "rent" paid by "N" was -5).  When
    "C" then lands on space 1, "A" collects the rent: its balance goes from
    0 to 50. *)
Lemma zero_balance_owner_collects_rent :
  played demo_debtor
  /\ player_of demo_debtor "A"
     = Some {| Player._player_name := "A"; Player._account_balance := 0;
               Player._current_location := Num 1;
               Player._owned_game_spaces := [Num 1] |}
  /\ move_player "C" 1 demo_debtor
     = (exec (Call_move_player "C" 1) demo_debtor, Ok tt)
  /\ player_of (exec (Call_move_player "C" 1) demo_debtor) "A"
     = Some {| Player._player_name := "A"; Player._account_balance := 50;
               Player._current_location := Num 1;
               Player._owned_game_spaces := [Num 1] |}.
Proof. split; [solve_played|]. vm_compute. repeat split. Qed.

(** ** Balances and the rent settlement *)

(** C8.  In every reachable state every balance is at least 0.  In the rent
    step of a turn, on a space that has an owner other than 'GO', the
    balances come out as after one withdrawal of [min rent balance] from the
    lander and one deposit of the same amount to the owner; that amount
    never exceeds the lander's balance. *)
Theorem balances_never_negative g :
  reachable g ->
  (forall name pl, player_of g name = Some pl -> 0 <= Player._account_balance pl)
  /\ (forall name k pl pl1 slot sp owner,
        player_of g name = Some pl ->
        Player._account_balance pl <> 0 ->
        player_of (fst (movement name k g)) name = Some pl1 ->
        board_getitem (Player.get_location pl1) (fst (movement name k g))
        = (fst (movement name k g), Ok (slot, sp)) ->
        GameSpace._game_space_owner sp = Some owner ->
        owner <> "GO" ->
        let paid := Z.min (GameSpace._rent sp) (Player._account_balance pl1) in
        (forall q,
           balance_of (fst (move_player name k g)) q
           = balance_of (rent_paid (fst (movement name k g)) name owner paid) q)
        /\ (owner <> name ->
            balance_of (fst (move_player name k g)) name
            = Some (Player._account_balance pl1 - paid))
        /\ 0 <= Player._account_balance pl1 - paid).
Proof.
  intros HI%reachable_Inv. split; [by apply inv_balance|].
  intros name k pl pl1 slot sp owner Hp Hbal Hp1 Hs Hown Hgo paid.
  pose proof (Inv_movement g name pl k HI Hp Hbal) as HI1.
  assert (move_player name k g = pay_rent name (fst (movement name k g))) as Hturn.
  { rewrite (move_player_unfold _ _ _ _ Hp), (proj2 (Z.eqb_neq _ 0) Hbal).
    destruct (board_getitem_go g (inv_board g HI)) as (gosp & Hgosp & _).
    by rewrite (movement_on_board _ _ _ _ _ _ (proj1 (inv_board g HI)) Hgosp Hp). }
  set (g1 := fst (movement name k g)) in *.
  apply String.eqb_neq in Hgo.
  destruct (pay_rent_closed _ _ _ _ _ _ HI1 Hp1 Hs Hown Hgo)
    as (ol & Hol & _ & Hrun).
  pose proof (inv_balance g1 HI1 _ _ Hp1) as Hnn.
  assert (forall q, balance_of (fst (move_player name k g)) q
                    = balance_of (rent_paid g1 name owner paid) q) as Hall.
  { intros q. rewrite Hturn. unfold paid.
    destruct (GameSpace._rent sp <? Player._account_balance pl1) eqn:Hlt.
    - apply Z.ltb_lt in Hlt. rewrite Hrun, Z.min_l by lia. done.
    - apply Z.ltb_ge in Hlt. destruct Hrun as (b & -> & _).
      rewrite Z.min_r by lia. unfold balance_of, player_of at 1.
      cbn [fst _players]. by rewrite dict_get_update_proj. }
  split; [exact Hall|]. split; [|unfold paid; lia].
  intros Hne. rewrite Hall. unfold balance_of, rent_paid, player_of, with_players.
  cbn [_players]. rewrite dict_get_update_ne, dict_get_update_eq by done.
  unfold player_of in Hp1. by rewrite Hp1.
Qed.

Lemma balances_never_negative_witness :
  0 <= 30
  /\ balance_of (fst (move_player "B" 1 demo_two_players)) "B"
     = Some (30 - Z.min 50 30).
Proof.
  assert (reachable demo_two_players) as Hreach by solve_reachable.
  destruct (balances_never_negative demo_two_players Hreach) as (Hnn & Hrent).
  split.
  - apply (Hnn "B" (Player.init "B" 30)). reflexivity.
  - apply (Hrent "B" 1 (Player.init "B" 30)
             (Player.set_location (Num 1) (Player.init "B" 30)) 1%nat
             (GameSpace.set_game_space_owner "A" (GameSpace.init (Num 1) 50)) "A");
      try reflexivity; simpl; try lia; discriminate.
Defined.

(** C5, as the code has it.  After the movement of an active player's
    turn, on a space whose owner is neither None nor 'GO' NOR THE LANDER:
    with rent below the balance the rent moves from the lander to the owner
    and the lander keeps a nonzero balance; otherwise (rent equal to the
    balance included) the whole balance moves to the owner, the lander is
    left with 0, an empty owned-space list and no space in their name. *)
Theorem rent_paid_to_another_player g0 player_name k pl0 pl slot sp owner :
  reachable g0 ->
  player_of g0 player_name = Some pl0 ->
  Player._account_balance pl0 <> 0 ->
  let g := fst (movement player_name k g0) in
  player_of g player_name = Some pl ->
  board_getitem (Player.get_location pl) g = (g, Ok (slot, sp)) ->
  GameSpace._game_space_owner sp = Some owner ->
  owner <> "GO" ->
  owner <> player_name ->
  move_player player_name k g0 = pay_rent player_name g
  /\ rent_settlement g player_name owner pl sp.
Proof.
  intros HI%reachable_Inv Hp0 Hbal g Hp Hs Hown Hgo Hne.
  pose proof (Inv_movement g0 player_name pl0 k HI Hp0 Hbal) as HI1.
  split.
  { rewrite (move_player_unfold _ _ _ _ Hp0), (proj2 (Z.eqb_neq _ 0) Hbal).
    destruct (board_getitem_go g0 (inv_board g0 HI)) as (gosp & Hgosp & _).
    unfold g.
    by rewrite (movement_on_board _ _ _ _ _ _ (proj1 (inv_board g0 HI)) Hgosp Hp0). }
  fold g in HI1. apply String.eqb_neq in Hgo.
  destruct (pay_rent_closed _ _ _ _ _ _ HI1 Hp Hs Hown Hgo)
    as (ol & Hol & _ & Hrun).
  unfold rent_settlement. cbv zeta. exists ol. split; [done|].
  unfold player_of in Hp, Hol.
  destruct (GameSpace._rent sp <? Player._account_balance pl) eqn:Hlt.
  - apply Z.ltb_lt in Hlt. rewrite Hrun. cbn [fst snd].
    split; [done|]. split; [|lia]. intros _.
    unfold rent_paid, player_of, with_players. cbn [_players _game_board].
    repeat split.
    + by rewrite dict_get_update_ne, dict_get_update_eq, Hp.
    + by rewrite dict_get_update_eq, dict_get_update_ne, Hol.
    + lia.
  - apply Z.ltb_ge in Hlt. destruct Hrun as (b & -> & _ & Hcleared).
    cbn [fst snd]. split; [done|]. split; [lia|]. intros _.
    unfold rent_paid, player_of, with_players. cbn [_players _game_board].
    repeat split.
    + rewrite dict_get_update_eq, dict_get_update_ne, dict_get_update_eq, Hp
        by done.
      unfold Player.clear_owned_game_spaces, Player.withdraw.
      cbn [fmap option_fmap option_map Player._player_name
           Player._account_balance Player._current_location].
      by rewrite Z.sub_diag.
    + by rewrite dict_get_update_ne, dict_get_update_eq, dict_get_update_ne, Hol.
    + intros i Hat. rewrite Hcleared.
      destruct (inv_owner g HI1 _ _ Hat) as (pl' & Hp' & Hin).
      unfold player_of in Hp'. assert (pl' = pl) as -> by congruence.
      by rewrite decide_True.
Qed.

Lemma rent_paid_to_another_player_witness :
  move_player "B" 1 demo_two_players
  = pay_rent "B" (fst (movement "B" 1 demo_two_players))
  /\ rent_settlement (fst (movement "B" 1 demo_two_players)) "B" "A"
       (Player.set_location (Num 1) (Player.init "B" 30))
       (GameSpace.set_game_space_owner "A" (GameSpace.init (Num 1) 50)).
Proof.
  assert (reachable demo_two_players) as Hreach by solve_reachable.
  apply (rent_paid_to_another_player demo_two_players "B" 1
           (Player.init "B" 30)
           (Player.set_location (Num 1) (Player.init "B" 30)) 1%nat
           (GameSpace.set_game_space_owner "A" (GameSpace.init (Num 1) 50))
           "A" Hreach);
    try reflexivity; simpl; try lia; discriminate.
Defined.

(** C5 as stated fails when the lander owns the space: "A" (balance 15
    after passing GO) lands on its own space 1 with rent 50; the landed
    space has an owner other than None and 'GO', the rent is not below the
    balance, yet "A" keeps its 15. *)
Lemma rent_settlement_fails_on_own_space :
  reachable demo_bought
  /\ player_of demo_bought "A"
     = Some {| Player._player_name := "A"; Player._account_balance := 10;
               Player._current_location := Num 1;
               Player._owned_game_spaces := [Num 1] |}
  /\ player_of (fst (movement "A" 25 demo_bought)) "A"
     = Some {| Player._player_name := "A"; Player._account_balance := 15;
               Player._current_location := Num 1;
               Player._owned_game_spaces := [Num 1] |}
  /\ board_getitem 1 (fst (movement "A" 25 demo_bought))
     = (fst (movement "A" 25 demo_bought),
        Ok (1%nat, GameSpace.set_game_space_owner "A" (GameSpace.init (Num 1) 50)))
  /\ "A" <> "GO"
  /\ ~ rent_settlement (fst (movement "A" 25 demo_bought)) "A" "A"
         {| Player._player_name := "A"; Player._account_balance := 15;
            Player._current_location := Num 1;
            Player._owned_game_spaces := [Num 1] |}
         (GameSpace.set_game_space_owner "A" (GameSpace.init (Num 1) 50)).
Proof.
  split; [solve_reachable|]. split; [reflexivity|]. split; [reflexivity|].
  split; [reflexivity|]. split; [discriminate|].
  unfold rent_settlement. cbv zeta. intros (ol & _ & _ & _ & Helim).
  destruct Helim as (Hlander & _); [simpl; lia|].
  vm_compute in Hlander. discriminate Hlander.
Qed.

(** * Further properties of the engine *)

(** ** Construction *)

Lemma create_spaces_board go_money rent_list g :
  _game_board (fst (create_spaces go_money rent_list g))
  = (_game_board g ++ _game_board (fresh_game go_money rent_list))%list.
Proof.
  unfold fresh_game, create_spaces, RealEstateGame_init.
  cbn [fst _game_board app]. by rewrite <- app_assoc.
Qed.

(** X1.  [create_spaces] appends to the board it finds, leaves the players
    alone and never fails.  On a new game it builds GO under key 0 and one
    space per rent, numbered from 1, with five times the rent as price and
    no owner; the rent list is cut at 24 and a shorter list gives a shorter
    board. *)
Theorem create_spaces_builds_board go_money rent_list g :
  snd (create_spaces go_money rent_list g) = Ok tt
  /\ _players (fst (create_spaces go_money rent_list g)) = _players g
  /\ _game_board (fst (create_spaces go_money rent_list g))
     = (_game_board g ++ _game_board (fresh_game go_money rent_list))%list
  /\ length (_game_board (fresh_game go_money rent_list))
     = S (Nat.min 24 (length rent_list))
  /\ _game_board (fresh_game go_money rent_list) !! 0%nat
     = Some (0, {| GameSpace._game_space_name := GO;
                   GameSpace._rent := go_money;
                   GameSpace._purchase_price := go_money * 5;
                   GameSpace._game_space_owner := None |})
  /\ (forall j : nat,
        _game_board (fresh_game go_money rent_list) !! S j
        = if decide (j < 24)%nat
          then (fun r => (Z.of_nat (S j),
                          {| GameSpace._game_space_name := Num (Z.of_nat (S j));
                             GameSpace._rent := r;
                             GameSpace._purchase_price := r * 5;
                             GameSpace._game_space_owner := None |}))
                 <$> rent_list !! j
          else None).
Proof.
  split; [done|]. split; [done|]. split; [apply create_spaces_board|].
  rewrite fresh_board_eq. split; [|split; [done|]].
  - cbn [length]. by rewrite length_fmap, length_zip_with, length_seqZ.
  - intros j. rewrite lookup_cons, list_lookup_fmap.
    destruct (decide (j < 24)%nat) as [Hj|Hj].
    + destruct (rent_list !! j) as [r|] eqn:E.
      * assert (zip (seqZ 1 24) rent_list !! j = Some (1 + Z.of_nat j, r)) as ->.
        { apply lookup_zip_with_Some. exists (1 + Z.of_nat j), r.
          split; [done|]. split; [|done]. apply lookup_seqZ. lia. }
        simpl. replace (1 + Z.of_nat j) with (Z.pos (Pos.of_succ_nat j)) by lia.
        done.
      * assert (zip (seqZ 1 24) rent_list !! j = None) as ->; [|done].
        apply lookup_zip_with_None. by right.
    + assert (zip (seqZ 1 24) rent_list !! j = None) as ->; [|done].
      apply lookup_zip_with_None. left. apply lookup_seqZ_ge. lia.
Qed.

(** X2.  [create_player] with a name that is not registered prints nothing
    and puts a new player at the end of the dict: the accessors then return
    the starting balance, position 0 and an empty owned-space list.  The
    board and the other players are as before. *)
Theorem create_player_registers g player_name starting_account_balance :
  player_of g player_name = None ->
  let g' := fst (create_player player_name starting_account_balance g) in
  snd (create_player player_name starting_account_balance g) = Ok []
  /\ get_player_account_balance player_name g' = (g', Ok starting_account_balance)
  /\ get_player_current_position player_name g' = (g', Ok 0)
  /\ get_list_of_player_owned_spaces player_name g' = (g', Ok [])
  /\ dict_keys (_players g') = (dict_keys (_players g) ++ [player_name])%list
  /\ (forall q, q <> player_name -> player_of g' q = player_of g q)
  /\ _game_board g' = _game_board g.
Proof.
  intros Hp g'. unfold g', create_player. unfold player_of in Hp. rewrite Hp.
  cbn [fst snd].
  assert (player_of
            {| _game_board := _game_board g;
               _players := _players g
                 ++ [(player_name, Player.init player_name starting_account_balance)] |}
            player_name
          = Some (Player.init player_name starting_account_balance)) as Hnew.
  { unfold player_of. cbn [_players].
    by rewrite dict_get_snoc, Hp, String.eqb_refl. }
  split; [done|].
  split; [by rewrite (get_player_account_balance_Some _ _ _ Hnew)|].
  split; [by rewrite (get_player_current_position_Some _ _ _ Hnew)|].
  split.
  { unfold get_list_of_player_owned_spaces, bind.
    by rewrite (players_getitem_Some _ _ _ Hnew). }
  split; [unfold dict_keys; cbn [_players]; by rewrite map_app|].
  split; [|done].
  intros q Hq. unfold player_of. cbn [_players]. rewrite dict_get_snoc.
  destruct (dict_get q (_players g)); [done|].
  by rewrite (proj2 (String.eqb_neq q player_name) Hq).
Qed.

Lemma create_player_registers_witness :
  get_player_account_balance "Z"
    (fst (create_player "Z" 42 demo_bought))
  = (fst (create_player "Z" 42 demo_bought), Ok 42).
Proof.
  by apply (create_player_registers demo_bought "Z" 42).
Defined.

(** ** Missing players and a missing board *)

(** X3.  Every public method that takes a player's name raises KeyError for
    a name that is not registered, before it changes anything. *)
Theorem unregistered_name_raises_KeyError g player_name k :
  player_of g player_name = None ->
  get_player_account_balance player_name g = (g, Raise KeyError)
  /\ get_player_current_position player_name g = (g, Raise KeyError)
  /\ get_list_of_player_owned_spaces player_name g = (g, Raise KeyError)
  /\ buy_space player_name g = (g, Raise KeyError)
  /\ move_player player_name k g = (g, Raise KeyError).
Proof.
  intros Hp. pose proof (players_getitem_None _ _ Hp) as Hget.
  unfold get_player_account_balance, get_player_current_position,
    get_list_of_player_owned_spaces, bind. rewrite Hget.
  split; [done|]. split; [done|]. split; [done|].
  split; [by apply buy_space_unregistered|by apply move_player_unregistered].
Qed.

Lemma unregistered_name_raises_KeyError_witness :
  buy_space "nobody" demo_bought = (demo_bought, Raise KeyError).
Proof.
  by apply (unregistered_name_raises_KeyError demo_bought "nobody" 0).
Defined.

Lemma board_getitem_empty g i :
  _game_board g = [] -> board_getitem i g = (g, Raise IndexError).
Proof.
  intros Hb. unfold board_getitem, py_index. rewrite Hb. cbn [length].
  change (Z.of_nat 0) with 0. rewrite Z.add_0_l.
  destruct (0 <=? i) eqn:E; [|done].
  by rewrite (proj2 (Z.ltb_ge i 0)) by (apply Z.leb_le in E; lia).
Qed.

(** X4.  Before [create_spaces] the board is empty.  Then [buy_space]
    raises IndexError, and a turn of an active player raises too: with a
    target of -1 or more the modulo by the board length 0 raises
    ZeroDivisionError and nothing has changed; with a target below -1 the
    player is first put on the target and then the rent step raises
    IndexError. *)
Theorem empty_board_raises g player_name pl k :
  _game_board g = [] ->
  player_of g player_name = Some pl ->
  Player._account_balance pl <> 0 ->
  buy_space player_name g = (g, Raise IndexError)
  /\ (-1 <= Player.get_location pl + k ->
      move_player player_name k g = (g, Raise ZeroDivisionError))
  /\ (Player.get_location pl + k < -1 ->
      move_player player_name k g
      = (with_players g
           (dict_update player_name
              (Player.set_location (Num (Player.get_location pl + k)))
              (_players g)),
         Raise IndexError)).
Proof.
  intros Hb Hp Hbal. split; [|split].
  - by rewrite (buy_space_off_board _ _ _ _ Hp (board_getitem_empty _ _ Hb)).
  - intros Hk. rewrite (move_player_unfold _ _ _ _ Hp).
    rewrite (proj2 (Z.eqb_neq _ 0) Hbal), (movement_unfold _ _ _ _ Hp).
    cbv zeta. rewrite Hb. cbn [length]. change (Z.of_nat 0 - 1) with (-1).
    by rewrite (proj2 (Z.ltb_ge _ (-1))) by lia.
  - intros Hk. rewrite (move_player_unfold _ _ _ _ Hp).
    rewrite (proj2 (Z.eqb_neq _ 0) Hbal), (movement_unfold _ _ _ _ Hp).
    cbv zeta. rewrite Hb. cbn [length]. change (Z.of_nat 0 - 1) with (-1).
    rewrite (proj2 (Z.ltb_lt _ (-1))) by lia.
    set (g1 := with_players g _).
    assert (player_of g1 player_name
            = Some (Player.set_location (Num (Player.get_location pl + k)) pl))
      as Hp1.
    { unfold player_of, g1, with_players. cbn [_players].
      rewrite dict_get_update_eq. unfold player_of in Hp. by rewrite Hp. }
    apply (pay_rent_off_board _ _ _ _ Hp1). by apply board_getitem_empty.
Qed.

Lemma empty_board_raises_witness :
  buy_space "A" (fst (create_player "A" 100 RealEstateGame_init))
  = (fst (create_player "A" 100 RealEstateGame_init), Raise IndexError)
  /\ move_player "A" 3 (fst (create_player "A" 100 RealEstateGame_init))
     = (fst (create_player "A" 100 RealEstateGame_init), Raise ZeroDivisionError).
Proof.
  destruct (empty_board_raises (fst (create_player "A" 100 RealEstateGame_init))
              "A" (Player.init "A" 100) 3 eq_refl eq_refl) as (Hbuy & Hmod & _).
  - simpl. lia.
  - split; [exact Hbuy|]. apply Hmod. by vm_compute.
Defined.

(** ** What no call changes: the spaces' data and the registry *)

Lemma keeps_refl g : keeps g g.
Proof. by split. Qed.

Lemma keeps_trans g1 g2 g3 : keeps g1 g2 -> keeps g2 g3 -> keeps g1 g3.
Proof. intros [H1 H2] [H3 H4]. split; congruence. Qed.

Lemma skeleton_alter f slot b :
  owner_only f -> skeleton (alter (prod_map id f) slot b) = skeleton b.
Proof.
  intros Hf. unfold skeleton. apply list_eq. intros i.
  rewrite !list_lookup_fmap, list_lookup_alter.
  destruct (decide (slot = i)) as [->|]; [|done].
  destruct (b !! i) as [[key sp]|]; [|done]. simpl.
  destruct (Hf sp) as (-> & -> & ->). done.
Qed.

Lemma registry_update name f (d : list (string * Player.t)) :
  (forall v, Player._player_name (f v) = Player._player_name v) ->
  (fun e : string * Player.t => (e.1, Player._player_name e.2))
    <$> dict_update name f d
  = (fun e : string * Player.t => (e.1, Player._player_name e.2)) <$> d.
Proof.
  intros Hf. induction d as [|[k0 v0] d IH]; [done|]. cbn [dict_update].
  destruct (String.eqb name k0); rewrite !fmap_cons; cbn [fst snd];
    [by rewrite Hf|by rewrite IH].
Qed.

Lemma keeps_player_call name f g :
  (forall v, Player._player_name (f v) = Player._player_name v) ->
  keeps g (fst (player_call name f g)).
Proof.
  intros Hf. split; [done|]. unfold registry, player_call. cbn [fst _players].
  by apply registry_update.
Qed.

Lemma keeps_space_call slot f g :
  owner_only f -> keeps g (fst (space_call slot f g)).
Proof.
  intros Hf. split; [|done]. unfold space_call. cbn [fst _game_board].
  by apply skeleton_alter.
Qed.

Lemma keeps_remove_owners l : forall g, keeps g (fst (remove_owners l g)).
Proof.
  induction l as [|n l IH]; intros g; [apply keeps_refl|].
  cbn [remove_owners]. unfold bind at 1.
  pose proof (board_getitem_name_fst n g) as F.
  destruct (board_getitem_name n g) as [g0 [[slot sp]|e]]; simpl in F; subst g0;
    [|apply keeps_refl].
  unfold bind. cbn [fst].
  pose proof (keeps_space_call slot GameSpace.remove_game_space_owner g
                owner_only_remove) as H1.
  destruct (space_call slot GameSpace.remove_game_space_owner g) as [g1 [[]|e]]
    eqn:E; [|done].
  cbn [fst] in H1. eapply keeps_trans; [exact H1|apply IH].
Qed.

Lemma keeps_lose_game name g : keeps g (fst (lose_game name g)).
Proof.
  unfold lose_game, bind, players_getitem.
  destruct (dict_get name (_players g)) as [pl|]; [|apply keeps_refl].
  pose proof (keeps_remove_owners (Player.get_owned_game_spaces pl) g) as H1.
  destruct (remove_owners _ g) as [g1 [[]|e]]; cbn [fst] in *; [|done].
  eapply keeps_trans; [exact H1|]. by apply keeps_player_call.
Qed.

Lemma keeps_rent_paid g name owner amount :
  keeps g (rent_paid g name owner amount).
Proof.
  split; [done|]. unfold registry, rent_paid, with_players. cbn [_players].
  by rewrite !registry_update.
Qed.

Lemma keeps_pay_rent name g : keeps g (fst (pay_rent name g)).
Proof.
  destruct (player_of g name) as [pl|] eqn:Hp;
    [|rewrite pay_rent_unregistered by done; apply keeps_refl].
  pose proof (board_getitem_fst (Player.get_location pl) g) as F.
  destruct (board_getitem (Player.get_location pl) g) as [g0 [[slot sp]|e]] eqn:Hs;
    simpl in F; subst g0;
    [|erewrite pay_rent_off_board by done; apply keeps_refl].
  rewrite (pay_rent_unfold _ _ _ _ _ Hp Hs).
  destruct (GameSpace._game_space_owner sp) as [owner|]; [|apply keeps_refl].
  destruct (String.eqb owner "GO"); [apply keeps_refl|].
  destruct (player_of g owner); [|apply keeps_refl].
  destruct (_ <? _); [apply keeps_rent_paid|].
  eapply keeps_trans; [apply keeps_rent_paid|apply keeps_lose_game].
Qed.

Lemma keeps_pass_go name g : keeps g (fst (pass_go name g)).
Proof.
  unfold pass_go, bind.
  pose proof (board_getitem_fst 0 g) as F.
  destruct (board_getitem 0 g) as [g0 [[slot sp]|e]]; simpl in F; subst g0;
    [|apply keeps_refl].
  unfold players_getitem.
  destruct (dict_get name (_players g)); [|apply keeps_refl].
  by apply keeps_player_call.
Qed.

Lemma keeps_movement name k g : keeps g (fst (movement name k g)).
Proof.
  destruct (player_of g name) as [pl|] eqn:Hp.
  - rewrite (movement_unfold _ _ _ _ Hp). cbv zeta.
    destruct (_ <? _).
    { by apply (keeps_player_call name (Player.set_location _) g). }
    destruct (_ =? 0); [apply keeps_refl|].
    eapply keeps_trans; [|apply keeps_pass_go].
    by apply (keeps_player_call name (Player.set_location _) g).
  - unfold movement, bind. rewrite (players_getitem_None _ _ Hp).
    apply keeps_refl.
Qed.

Lemma keeps_buy_space name g : keeps g (fst (buy_space name g)).
Proof.
  destruct (player_of g name) as [pl|] eqn:Hp;
    [|rewrite buy_space_unregistered by done; apply keeps_refl].
  pose proof (board_getitem_fst (Player.get_location pl) g) as F.
  destruct (board_getitem (Player.get_location pl) g) as [g0 [[slot sp]|e]] eqn:Hs;
    simpl in F; subst g0;
    [|erewrite buy_space_off_board by done; apply keeps_refl].
  rewrite (buy_space_unfold _ _ _ _ _ Hp Hs).
  destruct (buy_space_refused pl sp); [apply keeps_refl|].
  split; unfold bought; cbn [fst _game_board _players].
  - apply skeleton_alter, owner_only_set.
  - unfold registry. cbn [_players]. by rewrite !registry_update.
Qed.

Lemma keeps_move_player name k g : keeps g (fst (move_player name k g)).
Proof.
  destruct (player_of g name) as [pl|] eqn:Hp;
    [|rewrite move_player_unregistered by done; apply keeps_refl].
  rewrite (move_player_unfold _ _ _ _ Hp).
  destruct (_ =? 0); [apply keeps_refl|].
  pose proof (keeps_movement name k g) as H1.
  destruct (movement name k g) as [g1 [[]|e]]; cbn [fst] in H1; [|done].
  eapply keeps_trans; [exact H1|apply keeps_pay_rent].
Qed.

Lemma exec_registry c g :
  keeps g (exec c g)
  \/ exists n b,
       c = Call_create_player n b /\ player_of g n = None
       /\ skeleton (_game_board (exec c g)) = skeleton (_game_board g)
       /\ registry (exec c g) = (registry g ++ [(n, n)])%list.
Proof.
  destruct c as [n b|n|n|n|n k| |n]; cbn [exec].
  - unfold create_player. destruct (dict_get n (_players g)) eqn:Hn.
    + left. apply keeps_refl.
    + right. exists n, b. split; [done|]. split; [done|]. split; [done|].
      unfold registry. cbn [fst _players]. by rewrite fmap_app.
  - left. unfold get_player_account_balance, bind, players_getitem.
    destruct (dict_get n (_players g)); apply keeps_refl.
  - left. unfold get_player_current_position, bind, players_getitem.
    destruct (dict_get n (_players g)); apply keeps_refl.
  - left. apply keeps_buy_space.
  - left. apply keeps_move_player.
  - left. unfold check_game_over. destruct (scan_players _). apply keeps_refl.
  - left. unfold get_list_of_player_owned_spaces, bind, players_getitem.
    destruct (dict_get n (_players g)); apply keeps_refl.
Qed.

(** X5.  After [create_spaces] a board never changes except in the owner
    fields: whatever public calls are made, in whatever state and with
    whatever arguments, the number of slots, the dict keys and every
    space's name, rent and purchase price stay the same. *)
Theorem board_changes_in_owner_fields_only cs g :
  skeleton (_game_board (exec_all cs g)) = skeleton (_game_board g)
  /\ length (_game_board (exec_all cs g)) = length (_game_board g).
Proof.
  assert (skeleton (_game_board (exec_all cs g)) = skeleton (_game_board g)) as H.
  { revert g. induction cs as [|c cs IH]; intros g; [done|].
    cbn [exec_all fold_left]. fold (exec_all cs (exec c g)). rewrite IH.
    destruct (exec_registry c g) as [[H _]|(_ & _ & _ & _ & H & _)]; exact H. }
  split; [exact H|].
  apply (f_equal length) in H. unfold skeleton in H.
  by rewrite !length_fmap in H.
Qed.

(** X6.  Players are never removed, renamed or reordered: a public call
    leaves the registry (dict keys in order, with the name stored in each
    player object) as it is, except [create_player] with a new name, which
    adds that name at the end; so the registry before any sequence of calls
    is a prefix of the registry after it. *)
Theorem registry_only_grows cs g :
  (forall c,
     registry (exec c g) = registry g
     \/ exists n b, c = Call_create_player n b /\ player_of g n = None
                    /\ registry (exec c g) = (registry g ++ [(n, n)])%list)
  /\ exists added, registry (exec_all cs g) = (registry g ++ added)%list.
Proof.
  split.
  - intros c. destruct (exec_registry c g) as [[_ H]|(n & b & ? & ? & _ & H)].
    + by left.
    + right. by exists n, b.
  - revert g. induction cs as [|c cs IH]; intros g.
    + exists []. by rewrite app_nil_r.
    + cbn [exec_all fold_left]. fold (exec_all cs (exec c g)).
      destruct (IH (exec c g)) as (added & ->).
      destruct (exec_registry c g) as [[_ ->]|(n & b & _ & _ & _ & ->)].
      * by exists added.
      * exists ((n, n) :: added). by rewrite <- app_assoc.
Qed.

(** ** Money *)

Lemma total_update name f (d : list (string * Player.t)) delta :
  (forall v, dict_get name d = Some v ->
             Player._account_balance (f v) = Player._account_balance v + delta) ->
  foldr (fun e acc => Player._account_balance e.2 + acc) 0 (dict_update name f d)
  = foldr (fun e acc => Player._account_balance e.2 + acc) 0 d
    + (if dict_get name d is Some _ then delta else 0).
Proof.
  induction d as [|[k0 v0] d IH]; intros Hf; [done|].
  cbn [dict_update dict_get] in *.
  destruct (String.eqb name k0); cbn [foldr snd].
  - rewrite (Hf v0) by done. lia.
  - rewrite IH by done. lia.
Qed.

Lemma total_player_call name f g delta pl :
  player_of g name = Some pl ->
  Player._account_balance (f pl) = Player._account_balance pl + delta ->
  total_money (with_players g (dict_update name f (_players g)))
  = total_money g + delta.
Proof.
  intros Hp Hf. unfold total_money, with_players. cbn [_players].
  unfold player_of in Hp. rewrite (total_update _ _ _ delta).
  - by rewrite Hp.
  - intros v. rewrite Hp. by intros [= <-].
Qed.

Lemma lose_game_total name g :
  total_money (fst (lose_game name g)) = total_money g.
Proof.
  unfold lose_game, bind, players_getitem.
  destruct (dict_get name (_players g)) as [pl|] eqn:Hp; [|done].
  pose proof (remove_owners_players (Player.get_owned_game_spaces pl) g) as Hps.
  destruct (remove_owners _ g) as [g1 [[]|e]]; cbn [fst] in *.
  - unfold player_call. cbn [fst].
    change {| _game_board := _game_board g1;
              _players := dict_update name Player.clear_owned_game_spaces
                            (_players g1) |}
      with (with_players g1 (dict_update name Player.clear_owned_game_spaces
                               (_players g1))).
    rewrite (total_player_call name _ g1 0 pl).
    + unfold total_money. rewrite Hps. lia.
    + unfold player_of. by rewrite Hps.
    + simpl. lia.
  - unfold total_money. by rewrite Hps.
Qed.

Lemma rent_paid_total g name owner amount pl ol :
  player_of g name = Some pl -> player_of g owner = Some ol ->
  total_money (rent_paid g name owner amount) = total_money g.
Proof.
  intros Hp Ho. unfold rent_paid.
  set (g1 := with_players g (dict_update name (Player.withdraw amount) (_players g))).
  assert (exists ol1, player_of g1 owner = Some ol1) as [ol1 Ho1].
  { unfold player_of, g1, with_players. cbn [_players]. rewrite dict_get_update.
    unfold player_of in Ho. rewrite Ho. destruct (String.eqb name owner); eauto. }
  change (with_players g (dict_update owner (Player.deposit amount)
                            (dict_update name (Player.withdraw amount) (_players g))))
    with (with_players g1 (dict_update owner (Player.deposit amount) (_players g1))).
  rewrite (total_player_call owner _ g1 amount ol1) by done.
  unfold g1. rewrite (total_player_call name _ g (- amount) pl); [lia|done|].
  simpl. lia.
Qed.

Lemma pay_rent_total name g :
  total_money (fst (pay_rent name g)) = total_money g.
Proof.
  destruct (player_of g name) as [pl|] eqn:Hp;
    [|by rewrite pay_rent_unregistered].
  pose proof (board_getitem_fst (Player.get_location pl) g) as F.
  destruct (board_getitem (Player.get_location pl) g) as [g0 [[slot sp]|e]] eqn:Hs;
    simpl in F; subst g0; [|by erewrite pay_rent_off_board].
  rewrite (pay_rent_unfold _ _ _ _ _ Hp Hs).
  destruct (GameSpace._game_space_owner sp) as [owner|]; [|done].
  destruct (String.eqb owner "GO"); [done|].
  destruct (player_of g owner) as [ol|] eqn:Ho; [|done].
  destruct (_ <? _); [by eapply rent_paid_total|].
  rewrite lose_game_total. by eapply rent_paid_total.
Qed.

(** X7.  The rent step moves money between players and never creates or
    destroys any: in every state, whoever owns the space and whether or not
    the call raises, the sum of all balances is the same after [pay_rent],
    and the same after [lose_game]. *)
Theorem rent_conserves_money name g :
  total_money (fst (pay_rent name g)) = total_money g
  /\ total_money (fst (lose_game name g)) = total_money g.
Proof. split; [apply pay_rent_total|apply lose_game_total]. Qed.

(** X8.  On the 25-slot board a turn changes the sum of all balances by the
    GO payout when an active player's target is 24 or more, and not at all
    otherwise (inactive player, or target below 24): rent only changes
    hands. *)
Theorem turn_adds_only_the_go_payout g player_name pl k slot gosp :
  length (_game_board g) = 25%nat ->
  board_getitem 0 g = (g, Ok (slot, gosp)) ->
  player_of g player_name = Some pl ->
  total_money (fst (move_player player_name k g))
  = total_money g
    + (if (Player._account_balance pl =? 0)
          || (Player.get_location pl + k <? 24)
       then 0 else GameSpace._rent gosp).
Proof.
  intros Hlen Hgo Hp. rewrite (move_player_unfold _ _ _ _ Hp).
  destruct (Player._account_balance pl =? 0); [cbn [orb fst]; lia|].
  rewrite (movement_on_board _ _ _ _ _ _ Hlen Hgo Hp), pay_rent_total.
  cbn [orb].
  apply (total_player_call player_name _ g _ pl Hp).
  unfold moved. destruct (_ <? 24); simpl; lia.
Qed.

Lemma turn_adds_only_the_go_payout_witness :
  total_money (fst (move_player "A" 25 demo_bought))
  = total_money demo_bought + 5.
Proof.
  apply (turn_adds_only_the_go_payout demo_bought "A"
           {| Player._player_name := "A"; Player._account_balance := 10;
              Player._current_location := Num 1;
              Player._owned_game_spaces := [Num 1] |} 25 0%nat
           (GameSpace.init GO 5)); reflexivity.
Defined.

(** X9.  A purchase takes exactly the purchase price out of the game, and a
    refused purchase nothing: for a registered player standing on a board
    space, the sum of all balances after [buy_space] is the sum before
    minus the price when the call returned True, and unchanged otherwise. *)
Theorem purchase_removes_the_price g player_name pl slot sp :
  player_of g player_name = Some pl ->
  board_getitem (Player.get_location pl) g = (g, Ok (slot, sp)) ->
  total_money (fst (buy_space player_name g))
  = total_money g
    - match snd (buy_space player_name g) with
      | Ok true => GameSpace._purchase_price sp
      | _ => 0
      end.
Proof.
  intros Hp Hs. rewrite (buy_space_unfold _ _ _ _ _ Hp Hs).
  destruct (buy_space_refused pl sp); cbn [fst snd]; [lia|].
  unfold bought, total_money. cbn [_players].
  rewrite dict_update_update. unfold player_of in Hp.
  rewrite (total_update _ _ _ (- GameSpace._purchase_price sp)).
  - rewrite Hp. lia.
  - intros v _. simpl. lia.
Qed.

Lemma purchase_removes_the_price_witness :
  total_money (fst (buy_space "A" demo_moved)) = total_money demo_moved - 250.
Proof.
  apply (purchase_removes_the_price demo_moved "A"
           {| Player._player_name := "A"; Player._account_balance := 260;
              Player._current_location := Num 1;
              Player._owned_game_spaces := [] |} 1%nat (GameSpace.init (Num 1) 50));
    reflexivity.
Defined.


(** ** The winner scan *)

Lemma dict_get_in {V : Type} (d : list (string * V)) k v :
  NoDup (dict_keys d) -> (k, v) ∈ d -> dict_get k d = Some v.
Proof.
  induction d as [|[k0 v0] d IH]; intros Hnd Hin; [by apply elem_of_nil in Hin|].
  cbn [dict_keys map fst] in Hnd. apply NoDup_cons in Hnd as [Hk0 Hnd].
  cbn [dict_get]. apply elem_of_cons in Hin as [[= -> ->]|Hin].
  - by rewrite String.eqb_refl.
  - destruct (String.eqb k k0) eqn:E; [|by apply IH].
    apply String.eqb_eq in E. subst k0. exfalso. apply Hk0.
    unfold dict_keys. apply list_elem_of_In, in_map_iff. exists (k, v).
    split; [done|]. by apply list_elem_of_In.
Qed.

Lemma dict_get_None_keys {V : Type} (d : list (string * V)) k :
  dict_get k d = None -> k ∉ dict_keys d.
Proof.
  induction d as [|[k0 v0] d IH]; [intros _; apply not_elem_of_nil|].
  cbn [dict_get dict_keys map fst]. destruct (String.eqb k k0) eqn:E; [done|].
  intros H [->|Hin]%elem_of_cons; [by rewrite String.eqb_refl in E|].
  by apply IH.
Qed.

(** The loop of [check_game_over] over a part [l] of the dict [d]. *)
Lemma scan_loop (d l : list (string * Player.t)) : forall acc,
  (forall k v, (k, v) ∈ l -> dict_get k d = Some v) ->
  fold_left
    (fun (acc : Z * option string) (dict_entry : string) =>
       match dict_get dict_entry d with
       | Some player_obj =>
           if Player.get_current_account_balance player_obj =? 0
           then (fst acc + 1, snd acc)
           else (fst acc, Some (Player.get_player_name player_obj))
       | None => acc
       end)
    (dict_keys l) acc
  = (fst acc + Z.of_nat (length (List.filter out_of_money l)),
     match last ((fun e : string * Player.t => Player._player_name e.2)
                   <$> List.filter (fun e => negb (out_of_money e)) l) with
     | Some n => Some n
     | None => snd acc
     end).
Proof.
  induction l as [|[k v] l IH]; intros acc Hl.
  - destruct acc. cbn. f_equal. lia.
  - cbn [dict_keys map fst fold_left]. fold (dict_keys l).
    rewrite (Hl k v) by (by left).
    rewrite IH by (intros k' v' Hin; apply Hl; by right).
    cbn [List.filter].
    change (out_of_money (k, v)) with (Player._account_balance v =? 0).
    unfold Player.get_current_account_balance, Player.get_player_name.
    destruct (Player._account_balance v =? 0); cbn [fst snd negb length].
    + f_equal. lia.
    + rewrite fmap_cons, last_cons. cbn [snd].
      f_equal. by destruct (last _).
Qed.

Lemma scan_players_spec d :
  NoDup (dict_keys d) ->
  scan_players d
  = (Z.of_nat (length (List.filter out_of_money d)),
     last ((fun e : string * Player.t => Player._player_name e.2)
             <$> List.filter (fun e => negb (out_of_money e)) d)).
Proof.
  intros Hnd. unfold scan_players.
  rewrite (scan_loop d d) by (intros k v; by apply dict_get_in).
  cbn [fst snd]. f_equal. by destruct (last _).
Qed.

(** In reachable games the dict keys are distinct and each player object
    carries its key as name. *)
Lemma reachable_registry g :
  reachable g ->
  NoDup (dict_keys (_players g))
  /\ registry g = (fun n => (n, n)) <$> dict_keys (_players g).
Proof.
  assert (forall g', dict_keys (_players g') = fst <$> registry g') as Hkeys.
  { intros g'. unfold registry, dict_keys. rewrite <- list_fmap_compose.
    generalize (_players g'). induction l as [|[k v] l IH]; [done|].
    cbn. by rewrite IH. }
  induction 1 as [go_money rent_list _ _ _|g c _ [IHnd IHreg] _].
  - split; [apply NoDup_nil_2|done].
  - destruct (exec_registry c g) as [[_ Hsame]|(n & b & _ & Hnew & _ & Hadd)].
    + rewrite (Hkeys (exec c g)), Hsame, <- (Hkeys g). split; [done|].
      by rewrite IHreg at 1.
    + assert (dict_keys (_players (exec c g))
              = (dict_keys (_players g) ++ [n])%list) as Hk.
      { rewrite (Hkeys (exec c g)), Hadd, fmap_app, <- (Hkeys g). done. }
      rewrite Hk, Hadd, IHreg, fmap_app. split; [|done].
      apply NoDup_app. split; [done|]. split; [|apply NoDup_singleton].
      intros x Hx ->%list_elem_of_singleton.
      by apply (dict_get_None_keys _ _ Hnew).
Qed.

(** X10.  What [check_game_over] computes in a reachable game: when exactly
    one registered player has balance 0 it returns the key of the player
    created last among those who still have money (None when there is no
    such player), and the empty string for every other number of players
    without money.  The game is not changed. *)
Theorem check_game_over_reads g :
  reachable g ->
  check_game_over g
  = (g, Ok (if Z.of_nat (length (List.filter out_of_money (_players g))) =? 1
            then last (fst <$> List.filter (fun e => negb (out_of_money e))
                                 (_players g))
            else Some "")).
Proof.
  intros [Hnd Hreg]%reachable_registry. unfold check_game_over.
  rewrite (scan_players_spec _ Hnd).
  assert (forall l : list (string * Player.t),
            Forall (fun e => Player._player_name e.2 = e.1) l ->
            (fun e : string * Player.t => Player._player_name e.2)
              <$> List.filter (fun e => negb (out_of_money e)) l
            = fst <$> List.filter (fun e => negb (out_of_money e)) l) as Hnames.
  { induction l as [|e l IH]; intros Hl; [done|].
    apply Forall_cons in Hl as [He Hl]. cbn [List.filter].
    destruct (negb (out_of_money e)); [|by apply IH].
    rewrite !fmap_cons, He. f_equal. by apply IH. }
  rewrite Hnames; [done|]. unfold registry, dict_keys in Hreg.
  revert Hreg. generalize (_players g). induction l as [|[k v] l IH]; [done|].
  cbn. intros [= Hv Hl]. apply Forall_cons. split; [done|by apply IH].
Qed.

Lemma check_game_over_reads_witness :
  check_game_over demo_one_out = (demo_one_out, Ok (Some "C")).
Proof.
  assert (reachable demo_one_out) as Hreach by solve_reachable.
  rewrite (check_game_over_reads demo_one_out Hreach). reflexivity.
Defined.

(** X11.  With exactly two registered players [check_game_over] is right:
    it returns the name of the one who still has money exactly when the
    other one's balance is 0, and the empty string when both or neither
    have money. *)
Theorem check_game_over_two_players g a b pa pb :
  reachable g ->
  _players g = [(a, pa); (b, pb)] ->
  check_game_over g
  = (g, Ok (match Player._account_balance pa =? 0,
                  Player._account_balance pb =? 0 with
            | true, false => Some b
            | false, true => Some a
            | _, _ => Some ""
            end)).
Proof.
  intros [Hnd Hreg]%reachable_registry Hps.
  unfold registry in Hreg. rewrite Hps in Hnd, Hreg. cbn in Hnd, Hreg.
  injection Hreg as Ha Hb. apply NoDup_cons in Hnd as [Hab _].
  assert (String.eqb b a = false) as Hba.
  { apply String.eqb_neq. intros ->. apply Hab. by left. }
  unfold check_game_over, scan_players. rewrite Hps.
  cbn [dict_keys map fst fold_left dict_get]. rewrite !String.eqb_refl, Hba.
  unfold Player.get_current_account_balance, Player.get_player_name.
  rewrite Ha, Hb.
  destruct (Player._account_balance pa =? 0);
    destruct (Player._account_balance pb =? 0); reflexivity.
Qed.

Lemma check_game_over_two_players_witness :
  check_game_over demo_eliminated = (demo_eliminated, Ok (Some "A")).
Proof.
  assert (reachable demo_eliminated) as Hreach by solve_reachable.
  rewrite (check_game_over_two_players demo_eliminated "A" "B"
             {| Player._player_name := "A"; Player._account_balance := 40;
                Player._current_location := Num 1;
                Player._owned_game_spaces := [Num 1] |}
             {| Player._player_name := "B"; Player._account_balance := 0;
                Player._current_location := Num 1;
                Player._owned_game_spaces := [] |} Hreach eq_refl).
  reflexivity.
Defined.

(** ** Positions and exceptions during play *)

Lemma buy_space_proj {A : Type} (proj : Player.t -> A) name g q :
  (forall a v, proj (Player.withdraw a v) = proj v) ->
  (forall n v, proj (Player.buy_game_space n v) = proj v) ->
  proj <$> player_of (fst (buy_space name g)) q = proj <$> player_of g q.
Proof.
  intros Hwd Hbuy. destruct (player_of g name) as [pl|] eqn:Hp;
    [|by rewrite buy_space_unregistered].
  pose proof (board_getitem_fst (Player.get_location pl) g) as F.
  destruct (board_getitem (Player.get_location pl) g) as [g0 [[slot sp]|e]] eqn:Hs;
    simpl in F; subst g0; [|by erewrite buy_space_off_board].
  rewrite (buy_space_unfold _ _ _ _ _ Hp Hs).
  destruct (buy_space_refused pl sp); [done|].
  unfold bought, player_of. cbn [fst _players].
  by rewrite !dict_get_update_proj.
Qed.

(** Where everybody stands after a turn on the 25-slot board. *)
Lemma move_player_location g name pl k slot gosp q :
  length (_game_board g) = 25%nat ->
  board_getitem 0 g = (g, Ok (slot, gosp)) ->
  player_of g name = Some pl ->
  Player.get_location <$> player_of (fst (move_player name k g)) q
  = if String.eqb name q
    then Some (if Player._account_balance pl =? 0 then Player.get_location pl
               else if Player.get_location pl + k <? 24
                    then Player.get_location pl + k
                    else (Player.get_location pl + k) mod 25)
    else Player.get_location <$> player_of g q.
Proof.
  intros Hlen Hgo Hp. rewrite (move_player_unfold _ _ _ _ Hp).
  destruct (Player._account_balance pl =? 0).
  { cbn [fst]. destruct (String.eqb name q) eqn:E; [|done].
    apply String.eqb_eq in E. subst q. by rewrite Hp. }
  rewrite (movement_on_board _ _ _ _ _ _ Hlen Hgo Hp).
  rewrite pay_rent_proj by done.
  unfold player_of, with_players. cbn [_players]. rewrite dict_get_update.
  destruct (String.eqb name q) eqn:E; [|done].
  apply String.eqb_eq in E. subst q. unfold player_of in Hp. rewrite Hp.
  simpl. unfold moved. by destruct (_ <? 24).
Qed.

Lemma reachable_location_le g name pl :
  reachable g -> player_of g name = Some pl -> Player.get_location pl <= 24.
Proof.
  intros Hreach. revert name pl.
  induction Hreach as [go_money rent_list _ _ _|g c Hreach IH Hc];
    intros q ql Hq; [discriminate|].
  assert (Player.get_location <$> player_of (exec c g) q
          = Some (Player.get_location ql)) as Hloc by (by rewrite Hq).
  assert (forall o, Player.get_location <$> player_of g q = Some o -> o <= 24)
    as Hold.
  { intros o Ho. destruct (player_of g q) as [ql0|] eqn:E; [|discriminate].
    injection Ho as <-. by eapply IH. }
  clear Hq. apply reachable_Inv in Hreach as HI.
  destruct c as [n b|n|n|n|n k| |n]; cbn [exec] in Hloc.
  - unfold create_player in Hloc.
    destruct (dict_get n (_players g)) eqn:Hn; [by apply Hold|].
    unfold player_of in Hloc, Hold. cbn [fst _players] in Hloc.
    rewrite dict_get_snoc in Hloc.
    destruct (dict_get q (_players g)); [by apply Hold|].
    destruct (String.eqb q n); [|discriminate].
    injection Hloc as <-. by vm_compute.
  - apply Hold. revert Hloc.
    unfold get_player_account_balance, bind, players_getitem.
    by destruct (dict_get n (_players g)).
  - apply Hold. revert Hloc.
    unfold get_player_current_position, bind, players_getitem.
    by destruct (dict_get n (_players g)).
  - apply Hold. by rewrite buy_space_proj in Hloc.
  - destruct (player_of g n) as [pn|] eqn:Hn;
      [|rewrite move_player_unregistered in Hloc by done; by apply Hold].
    destruct (board_getitem_go g (inv_board g HI)) as (gosp & Hgo & _).
    rewrite (move_player_location _ _ _ _ _ _ _ (proj1 (inv_board g HI)) Hgo Hn)
      in Hloc.
    destruct (String.eqb n q); [|by apply Hold].
    injection Hloc as <-.
    destruct (_ =? 0); [by eapply IH|].
    destruct (Player.get_location pn + k <? 24) eqn:E.
    + apply Z.ltb_lt in E. lia.
    + pose proof (Z.mod_pos_bound (Player.get_location pn + k) 25). lia.
  - apply Hold. revert Hloc. unfold check_game_over.
    by destruct (scan_players _).
  - apply Hold. revert Hloc.
    unfold get_list_of_player_owned_spaces, bind, players_getitem.
    by destruct (dict_get n (_players g)).
Qed.

Lemma pay_rent_returns g name pl :
  Inv g -> player_of g name = Some pl -> 0 <= Player.get_location pl < 25 ->
  snd (pay_rent name g) = Ok tt.
Proof.
  intros HI Hp Hloc.
  destruct (board_getitem_in_range g _ (inv_board g HI) Hloc) as (sp & Hs & _).
  destruct (GameSpace._game_space_owner sp) as [owner|] eqn:Hown;
    [|by rewrite (pay_rent_unfold _ _ _ _ _ Hp Hs), Hown].
  destruct (String.eqb owner "GO") eqn:Hgo;
    [by rewrite (pay_rent_unfold _ _ _ _ _ Hp Hs), Hown, Hgo|].
  destruct (pay_rent_closed _ _ _ _ _ _ HI Hp Hs Hown Hgo) as (ol & _ & _ & Hrun).
  destruct (_ <? _); [by rewrite Hrun|].
  by destruct Hrun as (b & -> & _).
Qed.

(** X12.  No player ever stands beyond slot 24, whatever distances are
    passed to [move_player]. *)
Theorem positions_at_most_24 g player_name pl :
  reachable g -> player_of g player_name = Some pl ->
  Player.get_location pl <= 24
  /\ get_player_current_position player_name g = (g, Ok (Player.get_location pl)).
Proof.
  intros Hreach Hp. split; [by eapply reachable_location_le|].
  by apply get_player_current_position_Some.
Qed.

Lemma positions_at_most_24_witness :
  Player.get_location
    {| Player._player_name := "B"; Player._account_balance := 0;
       Player._current_location := Num 1;
       Player._owned_game_spaces := [] |} <= 24.
Proof.
  assert (reachable demo_eliminated) as Hreach by solve_reachable.
  apply (positions_at_most_24 demo_eliminated "B" _ Hreach eq_refl).
Defined.

(** X13.  Forward play never raises: in a reachable game, for a registered
    player who stands on the board (position 0 or more), [buy_space]
    returns True or False, and [move_player] with a distance of 0 or more
    returns normally and leaves the player on a slot from 0 to 24. *)
Theorem forward_play_never_raises g player_name pl k :
  reachable g ->
  player_of g player_name = Some pl ->
  0 <= Player.get_location pl ->
  0 <= k ->
  (exists b, snd (buy_space player_name g) = Ok b)
  /\ snd (move_player player_name k g) = Ok tt
  /\ exists pos,
       Player.get_location
         <$> player_of (fst (move_player player_name k g)) player_name = Some pos
       /\ 0 <= pos <= 24.
Proof.
  intros Hreach Hp Hloc Hk.
  pose proof (reachable_location_le g _ _ Hreach Hp) as Hle.
  apply reachable_Inv in Hreach as HI.
  destruct (board_getitem_go g (inv_board g HI)) as (gosp & Hgo & _).
  pose proof (proj1 (inv_board g HI)) as Hlen.
  split; [|split].
  - destruct (board_getitem_in_range g (Player.get_location pl) (inv_board g HI))
      as (sp & Hs & _); [lia|].
    rewrite (buy_space_unfold _ _ _ _ _ Hp Hs).
    destruct (buy_space_refused pl sp); eauto.
  - rewrite (move_player_unfold _ _ _ _ Hp).
    destruct (Player._account_balance pl =? 0) eqn:Hz; [done|].
    apply Z.eqb_neq in Hz.
    pose proof (Inv_movement g player_name pl k HI Hp Hz) as HI1.
    rewrite (movement_on_board _ _ _ _ _ _ Hlen Hgo Hp) in *. cbn [fst] in HI1.
    eapply (pay_rent_returns _ _ (moved pl k (GameSpace._rent gosp)) HI1).
    + unfold player_of, with_players. cbn [_players].
      rewrite dict_get_update_eq. unfold player_of in Hp. by rewrite Hp.
    + unfold moved. destruct (Player.get_location pl + k <? 24) eqn:E.
      * apply Z.ltb_lt in E. change (0 <= Player.get_location pl + k < 25). lia.
      * pose proof (Z.mod_pos_bound (Player.get_location pl + k) 25).
        change (0 <= (Player.get_location pl + k) mod 25 < 25). lia.
  - rewrite (move_player_location _ _ _ _ _ _ _ Hlen Hgo Hp), String.eqb_refl.
    eexists. split; [done|].
    destruct (_ =? 0); [lia|].
    destruct (Player.get_location pl + k <? 24) eqn:E.
    + apply Z.ltb_lt in E. lia.
    + pose proof (Z.mod_pos_bound (Player.get_location pl + k) 25). lia.
Qed.

Lemma forward_play_never_raises_witness :
  snd (move_player "A" 48 demo_bought) = Ok tt.
Proof.
  assert (reachable demo_bought) as Hreach by solve_reachable.
  apply (forward_play_never_raises demo_bought "A"
           {| Player._player_name := "A"; Player._account_balance := 10;
              Player._current_location := Num 1;
              Player._owned_game_spaces := [Num 1] |} 48 Hreach eq_refl).
  - by vm_compute.
  - lia.
Defined.

Lemma board_getitem_negative g i :
  board_ok (_game_board g) -> i < 0 ->
  board_getitem i g
  = (g, Raise (if -25 <=? i then KeyError else IndexError)).
Proof.
  intros (Hlen & Hshape & _) Hi. unfold board_getitem, py_index. rewrite Hlen.
  rewrite (proj2 (Z.leb_gt 0 i)) by lia. change (Z.of_nat 25) with 25.
  destruct (-25 <=? i) eqn:E.
  - apply Z.leb_le in E. rewrite (proj2 (Z.leb_le 0 (25 + i))) by lia.
    destruct (lookup_lt_is_Some_2 (_game_board g) (Z.to_nat (25 + i)))
      as [[key sp] Hlook]; [lia|].
    rewrite Hlook. destruct (Hshape _ _ _ Hlook) as (Hkey & _).
    by rewrite (proj2 (Z.eqb_neq key i)) by lia.
  - apply Z.leb_gt in E. by rewrite (proj2 (Z.leb_gt 0 (25 + i))) by lia.
Qed.

(** X14.  A distance that takes an active player below slot 0 makes
    [move_player] raise, but only after the player was moved: the player is
    left on the negative position (nothing else changes), and the rent step
    raises KeyError for targets from -25 to -1, where Python's negative list
    index finds a dict with another key, and IndexError below -25. *)
Theorem moving_below_zero_raises_after_moving g player_name pl k :
  reachable g ->
  player_of g player_name = Some pl ->
  Player._account_balance pl <> 0 ->
  Player.get_location pl + k < 0 ->
  move_player player_name k g
  = (with_players g
       (dict_update player_name
          (Player.set_location (Num (Player.get_location pl + k))) (_players g)),
     Raise (if -25 <=? Player.get_location pl + k then KeyError else IndexError)).
Proof.
  intros HI%reachable_Inv Hp Hbal Hneg.
  destruct (board_getitem_go g (inv_board g HI)) as (gosp & Hgo & _).
  rewrite (move_player_unfold _ _ _ _ Hp), (proj2 (Z.eqb_neq _ 0) Hbal).
  rewrite (movement_on_board _ _ _ _ _ _ (proj1 (inv_board g HI)) Hgo Hp).
  rewrite (dict_update_ext player_name _
             (Player.set_location (Num (Player.get_location pl + k)))).
  2:{ unfold player_of in Hp. intros v. rewrite Hp. intros [= <-].
      unfold moved. by rewrite (proj2 (Z.ltb_lt _ 24)) by lia. }
  set (g1 := with_players g _).
  assert (player_of g1 player_name
          = Some (Player.set_location (Num (Player.get_location pl + k)) pl))
    as Hp1.
  { unfold player_of, g1, with_players. cbn [_players].
    rewrite dict_get_update_eq. unfold player_of in Hp. by rewrite Hp. }
  apply (pay_rent_off_board _ _ _ _ Hp1).
  apply (board_getitem_negative g1); [apply (inv_board g HI)|done].
Qed.

Lemma moving_below_zero_raises_after_moving_witness :
  snd (move_player "A" (-3) demo_bought) = Raise KeyError
  /\ Player.get_location
       <$> player_of (fst (move_player "A" (-3) demo_bought)) "A" = Some (-2).
Proof.
  assert (reachable demo_bought) as Hreach by solve_reachable.
  rewrite (moving_below_zero_raises_after_moving demo_bought "A"
             {| Player._player_name := "A"; Player._account_balance := 10;
                Player._current_location := Num 1;
                Player._owned_game_spaces := [Num 1] |} (-3) Hreach eq_refl).
  - split; reflexivity.
  - simpl. lia.
  - by vm_compute.
Defined.

(** ** Who owns and who collects *)

(** X15.  GO is never owned: in every reachable state the GO space has no
    owner, and every name in a player's owned-space list is a number from 1
    to 24 (never ['GO']). *)
Theorem go_is_never_owned g :
  reachable g ->
  (forall slot sp, board_getitem 0 g = (g, Ok (slot, sp)) ->
                   GameSpace._game_space_name sp = GO
                   /\ GameSpace._game_space_owner sp = None)
  /\ (forall p pl n,
        player_of g p = Some pl -> n ∈ Player._owned_game_spaces pl ->
        exists i, n = Num i /\ 1 <= i <= 24).
Proof.
  intros HI%reachable_Inv. split.
  - intros slot sp Hs.
    destruct (board_getitem_shape _ _ _ _ _ (inv_board g HI) Hs)
      as (_ & _ & -> & Hlook & (_ & Hname & _)).
    split; [exact Hname|].
    pose proof (proj2 (proj2 (inv_board g HI))) as Hgo.
    unfold owner_at in Hgo. change (Z.to_nat 0) with 0%nat in Hlook.
    by rewrite Hlook in Hgo.
  - intros p pl n Hp Hn.
    destruct (inv_owned g HI p pl n Hp Hn) as (i & -> & Ho).
    apply (owner_at_lt _ _ _ (inv_board g HI)) in Ho.
    exists (Z.of_nat i). split; [done|lia].
Qed.

Lemma go_is_never_owned_witness :
  exists i, Num 1 = Num i /\ 1 <= i <= 24.
Proof.
  assert (reachable demo_bought) as Hreach by solve_reachable.
  apply (proj2 (go_is_never_owned demo_bought Hreach) "A"
           {| Player._player_name := "A"; Player._account_balance := 10;
              Player._current_location := Num 1;
              Player._owned_game_spaces := [Num 1] |} (Num 1) eq_refl).
  by apply list_elem_of_singleton.
Defined.



Lemma lose_game_frame name g q :
  q <> name -> player_of (fst (lose_game name g)) q = player_of g q.
Proof.
  intros Hq. unfold lose_game, bind, players_getitem.
  destruct (dict_get name (_players g)) as [pl|]; [|done].
  pose proof (remove_owners_players (Player.get_owned_game_spaces pl) g) as Hps.
  destruct (remove_owners _ g) as [g1 [[]|e]]; cbn [fst] in *.
  - unfold player_call, player_of. cbn [fst _players].
    rewrite dict_get_update_ne by done. by rewrite Hps.
  - unfold player_of. by rewrite Hps.
Qed.

Lemma pass_go_frame name g q :
  q <> name -> player_of (fst (pass_go name g)) q = player_of g q.
Proof.
  intros Hq. unfold pass_go, bind.
  pose proof (board_getitem_fst 0 g) as F.
  destruct (board_getitem 0 g) as [g0 [[slot sp]|e]]; simpl in F; subst g0;
    [|done].
  unfold players_getitem.
  destruct (dict_get name (_players g)); [|done].
  unfold player_call, player_of. cbn [fst _players].
  by rewrite dict_get_update_ne.
Qed.

Lemma movement_frame name k g q :
  q <> name -> player_of (fst (movement name k g)) q = player_of g q.
Proof.
  intros Hq. destruct (player_of g name) as [pl|] eqn:Hp.
  - rewrite (movement_unfold _ _ _ _ Hp). cbv zeta.
    destruct (_ <? _).
    { unfold player_of, with_players. cbn [fst _players].
      by rewrite dict_get_update_ne. }
    destruct (_ =? 0); [done|].
    rewrite pass_go_frame by done.
    unfold player_of, with_players. cbn [_players].
    by rewrite dict_get_update_ne.
  - unfold movement, bind. by rewrite (players_getitem_None _ _ Hp).
Qed.

Lemma pay_rent_skips_GO name g :
  name <> "GO" -> player_of (fst (pay_rent name g)) "GO" = player_of g "GO".
Proof.
  intros Hne.
  destruct (player_of g name) as [pl|] eqn:Hp;
    [|by rewrite pay_rent_unregistered].
  pose proof (board_getitem_fst (Player.get_location pl) g) as F.
  destruct (board_getitem (Player.get_location pl) g) as [g0 [[slot sp]|e]] eqn:Hs;
    simpl in F; subst g0; [|by erewrite pay_rent_off_board].
  rewrite (pay_rent_unfold _ _ _ _ _ Hp Hs).
  destruct (GameSpace._game_space_owner sp) as [owner|]; [|done].
  destruct (String.eqb owner "GO") eqn:Hgo; [done|].
  apply String.eqb_neq in Hgo.
  destruct (player_of g owner); [|done].
  assert (forall a, player_of (rent_paid g name owner a) "GO" = player_of g "GO")
    as Hpaid.
  { intros a. unfold rent_paid, player_of, with_players. cbn [_players].
    by rewrite !dict_get_update_ne. }
  destruct (_ <? _); [apply Hpaid|].
  rewrite lose_game_frame by done. apply Hpaid.
Qed.

(** X17.  No rent is due on a space without owner, nor on a space whose
    owner is called "GO": [pay_rent] returns at once and the game is as
    before.  So a player registered under the name "GO" can own spaces but
    never collects: in any state, a turn of any other player leaves the
    record of the player "GO" exactly as it was. *)
Theorem no_rent_for_owner_named_GO g player_name pl slot sp k :
  player_of g player_name = Some pl ->
  board_getitem (Player.get_location pl) g = (g, Ok (slot, sp)) ->
  (GameSpace._game_space_owner sp = None
   \/ GameSpace._game_space_owner sp = Some "GO" ->
   pay_rent player_name g = (g, Ok tt))
  /\ (player_name <> "GO" ->
      player_of (fst (move_player player_name k g)) "GO" = player_of g "GO").
Proof.
  intros Hp Hs. split.
  - intros [Hown|Hown]; by rewrite (pay_rent_unfold _ _ _ _ _ Hp Hs), Hown.
  - intros Hne. rewrite (move_player_unfold _ _ _ _ Hp).
    destruct (_ =? 0); [done|].
    pose proof (movement_frame player_name k g "GO" (not_eq_sym Hne)) as Hm.
    destruct (movement player_name k g) as [g1 [[]|e]]; cbn [fst] in Hm |- *;
      [|done].
    by rewrite pay_rent_skips_GO.
Qed.

Lemma no_rent_for_owner_named_GO_witness :
  pay_rent "A" demo_moved = (demo_moved, Ok tt).
Proof.
  destruct (no_rent_for_owner_named_GO demo_moved "A"
              {| Player._player_name := "A"; Player._account_balance := 260;
                 Player._current_location := Num 1;
                 Player._owned_game_spaces := [] |} 1%nat
              (GameSpace.init (Num 1) 50) 0 eq_refl eq_refl) as [Hfree _].
  apply Hfree. by left.
Defined.

Lemma deposit_withdraw a v : Player.deposit a (Player.withdraw a v) = v.
Proof.
  destruct v as [n b l o]. unfold Player.deposit, Player.withdraw. simpl.
  f_equal. lia.
Qed.

(** X18.  A player never pays rent to themselves: when the lander owns the
    space, [pay_rent] leaves every balance as it was, in every state; and
    when the rent is below the lander's balance the whole game is as
    before. *)
Theorem own_space_costs_nothing g player_name pl slot sp :
  player_of g player_name = Some pl ->
  board_getitem (Player.get_location pl) g = (g, Ok (slot, sp)) ->
  GameSpace._game_space_owner sp = Some player_name ->
  (forall q, balance_of (fst (pay_rent player_name g)) q = balance_of g q)
  /\ (GameSpace._rent sp < Player._account_balance pl ->
      pay_rent player_name g = (g, Ok tt)).
Proof.
  intros Hp Hs Hown.
  assert (forall a, rent_paid g player_name player_name a = g) as Hpaid.
  { intros a. unfold rent_paid, with_players.
    rewrite dict_update_update, dict_update_id; [apply game_eta|].
    intros v _. apply deposit_withdraw. }
  rewrite (pay_rent_unfold _ _ _ _ _ Hp Hs), Hown, Hp.
  destruct (String.eqb player_name "GO"); [done|].
  destruct (_ <? _) eqn:Hlt.
  - rewrite Hpaid. done.
  - rewrite Hpaid. split.
    + intros q. unfold balance_of. by rewrite lose_game_proj.
    + intros H. apply Z.ltb_ge in Hlt. lia.
Qed.

Lemma own_space_costs_nothing_witness :
  balance_of (fst (pay_rent "A" demo_bought)) "A" = balance_of demo_bought "A".
Proof.
  apply (own_space_costs_nothing demo_bought "A"
           {| Player._player_name := "A"; Player._account_balance := 10;
              Player._current_location := Num 1;
              Player._owned_game_spaces := [Num 1] |} 1%nat
           (GameSpace.set_game_space_owner "A" (GameSpace.init (Num 1) 50)));
    reflexivity.
Defined.

Lemma owner_persists g i owner c :
  Inv g ->
  owner_at (_game_board g) i = Some owner ->
  owner_at (_game_board (exec c g)) i = Some owner
  \/ (owner_at (_game_board (exec c g)) i = None
      /\ exists pl', player_of (exec c g) owner = Some pl'
                     /\ Player._owned_game_spaces pl' = []).
Proof.
  intros HI Hat. destruct c as [n b|n|n|n|n k| |n]; cbn [exec].
  - left. unfold create_player. by destruct (dict_get n (_players g)).
  - left. unfold get_player_account_balance, bind, players_getitem.
    by destruct (dict_get n (_players g)).
  - left. unfold get_player_current_position, bind, players_getitem.
    by destruct (dict_get n (_players g)).
  - left. destruct (player_of g n) as [pn|] eqn:Hn;
      [|by rewrite buy_space_unregistered].
    pose proof (board_getitem_fst (Player.get_location pn) g) as F.
    destruct (board_getitem (Player.get_location pn) g) as [g0 [[slot sp1]|e]]
      eqn:Hs; simpl in F; subst g0; [|by erewrite buy_space_off_board].
    rewrite (buy_space_unfold _ _ _ _ _ Hn Hs).
    destruct (buy_space_refused pn sp1) eqn:Href; [done|].
    apply not_refused in Href as (_ & Hfree & _).
    apply board_getitem_Ok in Hs as (_ & _ & Hlook).
    unfold bought. cbn [fst _game_board]. rewrite owner_at_alter.
    destruct (decide (slot = i)) as [->|]; [|done].
    unfold owner_at in Hat. rewrite Hlook in Hat. congruence.
  - destruct (player_of g n) as [pn|] eqn:Hn;
      [|left; by rewrite move_player_unregistered].
    rewrite (move_player_unfold _ _ _ _ Hn).
    destruct (Player._account_balance pn =? 0) eqn:Hz; [by left|].
    apply Z.eqb_neq in Hz.
    pose proof (Inv_movement g n pn k HI Hn Hz) as HI1.
    destruct (board_getitem_go g (inv_board g HI)) as (gosp & Hgo & _).
    rewrite (movement_on_board _ _ _ _ _ _ (proj1 (inv_board g HI)) Hgo Hn) in *.
    cbn [fst] in HI1.
    set (g1 := with_players g _) in *.
    assert (owner_at (_game_board g1) i = Some owner) as Hat1 by done.
    assert (exists pn1, player_of g1 n = Some pn1) as [pn1 Hn1].
    { unfold player_of, g1, with_players. cbn [_players].
      rewrite dict_get_update_eq. unfold player_of in Hn. rewrite Hn. eauto. }
    pose proof (board_getitem_fst (Player.get_location pn1) g1) as F.
    destruct (board_getitem (Player.get_location pn1) g1) as [g0 [[slot sp1]|e]]
      eqn:Hs; simpl in F; subst g0; [|left; by erewrite pay_rent_off_board].
    destruct (GameSpace._game_space_owner sp1) as [o|] eqn:Hown;
      [|left; by rewrite (pay_rent_unfold _ _ _ _ _ Hn1 Hs), Hown].
    destruct (String.eqb o "GO") eqn:Ho;
      [left; by rewrite (pay_rent_unfold _ _ _ _ _ Hn1 Hs), Hown, Ho|].
    destruct (pay_rent_closed _ _ _ _ _ _ HI1 Hn1 Hs Hown Ho)
      as (ol & Hol & _ & Hrun).
    destruct (_ <? _); [left; by rewrite Hrun|].
    destruct Hrun as (b & -> & _ & Hcleared). cbn [fst _game_board].
    rewrite Hcleared.
    destruct (decide (Num (Z.of_nat i) ∈ Player._owned_game_spaces pn1))
      as [Hin|]; [right|by left].
    split; [done|].
    destruct (inv_owned g1 HI1 n pn1 _ Hn1 Hin) as (i' & E & Hat').
    injection E as E. apply Nat2Z.inj in E. subst i'.
    assert (owner = n) as -> by congruence.
    unfold player_of. cbn [_players]. rewrite dict_get_update_eq.
    destruct (dict_get n (_players (rent_paid g1 n o (Player._account_balance pn1))))
      as [x|] eqn:E.
    + exists (Player.clear_owned_game_spaces x). by split.
    + exfalso. unfold rent_paid, with_players in E. cbn [_players] in E.
      rewrite dict_get_update, dict_get_update_eq in E.
      unfold player_of in Hn1. rewrite Hn1 in E.
      by destruct (String.eqb o n).
  - left. unfold check_game_over. by destruct (scan_players _).
  - left. unfold get_list_of_player_owned_spaces, bind, players_getitem.
    by destruct (dict_get n (_players g)).
Qed.

(** X19.  A space that has an owner cannot be bought, and it keeps its
    owner until [lose_game] is run on that owner: in a reachable game,
    [buy_space] by any player standing on an owned space (the owner
    included) returns False and changes nothing; and after any public call
    the space has the same owner as before, or else it has no owner and its
    former owner's owned-space list is empty. *)
Theorem owned_space_cannot_be_bought g i key sp owner :
  reachable g ->
  _game_board g !! i = Some (key, sp) ->
  GameSpace._game_space_owner sp = Some owner ->
  (forall other po,
     player_of g other = Some po -> Player.get_location po = key ->
     buy_space other g = (g, Ok false))
  /\ (forall c,
        owner_at (_game_board (exec c g)) i = Some owner
        \/ (owner_at (_game_board (exec c g)) i = None
            /\ exists pl', player_of (exec c g) owner = Some pl'
                           /\ Player._owned_game_spaces pl' = [])).
Proof.
  intros HI%reachable_Inv Hlook Hown. split.
  - intros other po Hpo Hloc.
    destruct (proj1 (proj2 (inv_board g HI)) _ _ _ Hlook) as (Hkey & _).
    pose proof (lookup_lt_Some _ _ _ Hlook) as Hlt.
    rewrite (proj1 (inv_board g HI)) in Hlt.
    destruct (board_getitem_in_range g key (inv_board g HI)) as (sp' & Hs & Hlook');
      [lia|].
    assert (Z.to_nat key = i) as Hi by lia. rewrite Hi in Hs, Hlook'.
    assert (sp' = sp) as -> by congruence.
    rewrite <- Hloc in Hs.
    rewrite (buy_space_unfold _ _ _ _ _ Hpo Hs). unfold buy_space_refused.
    rewrite Hown, bool_decide_eq_false_2 by done. cbn [negb].
    by rewrite orb_true_r.
  - intros c. apply owner_persists; [done|].
    unfold owner_at. by rewrite Hlook.
Qed.

Lemma owned_space_cannot_be_bought_witness :
  buy_space "B" (exec (Call_move_player "B" 1)
                   (exec (Call_create_player "B" 500) demo_bought))
  = (exec (Call_move_player "B" 1)
       (exec (Call_create_player "B" 500) demo_bought), Ok false).
Proof.
  assert (reachable (exec (Call_move_player "B" 1)
                       (exec (Call_create_player "B" 500) demo_bought)))
    as Hreach.
  { apply reachable_call; [|exact I].
    apply reachable_call; [solve_reachable|simpl; lia]. }
  apply (proj1 (owned_space_cannot_be_bought _ 1%nat 1
                  (GameSpace.set_game_space_owner "A" (GameSpace.init (Num 1) 50))
                  "A" Hreach eq_refl eq_refl) "B"
           {| Player._player_name := "B"; Player._account_balance := 450;
              Player._current_location := Num 1;
              Player._owned_game_spaces := [] |}); reflexivity.
Defined.
